(** * process_csv: aggregation of crime records into a monthly series

    A shallow embedding of [process_csv.py] together with the store
    class it drives, and the properties of the pipeline.

    Layout:
    - Python values, exceptions and the insertion-ordered [dict];
    - the [datetime.date] primitive used by the range predicate;
    - [check_date_in_range], [build_crime_data_class], [create_csv]
      as written in [process_csv.py];
    - the [CrimeData] store ([crime_data.py]);
    - lemmas and theorems. *)

From Stdlib Require Import ZArith List String Bool Lia Permutation.
Import ListNotations.
Local Open Scope Z_scope.

(** ** Python values *)

(** The cells of a data frame row and the keys and leaves of the
    store are dynamically typed.  [bool] is a subclass of [int]. *)
Inductive pyval : Type :=
| PStr (s : string)
| PInt (z : Z)
| PBool (b : bool)
| PNone.

Definition pyval_eq_dec (a b : pyval) : {a = b} + {a <> b}.
Proof.
  decide equality; [apply string_dec | apply Z.eq_dec | apply bool_dec].
Defined.

(** [isinstance(v, str)] and [isinstance(v, int)]. *)
Definition isinstance_str (v : pyval) : bool :=
  match v with PStr _ => true | _ => false end.

Definition isinstance_int (v : pyval) : bool :=
  match v with PInt _ | PBool _ => true | _ => false end.

(** The numeric reading of a value: [True] is [1], [False] is [0]. *)
Definition as_number (v : pyval) : pyval :=
  match v with PBool b => PInt (Z.b2z b) | _ => v end.

(** [a == b], with which also [hash] agrees: the equality a [dict]
    uses on its keys. *)
Definition py_eqb (a b : pyval) : bool :=
  if pyval_eq_dec (as_number a) (as_number b) then true else false.

(** ** Exceptions *)

Inductive exn : Type :=
| TypeError | ValueError | OverflowError | IndexError | KeyError.

Inductive result (A : Type) : Type :=
| Ok (a : A)
| Raise (e : exn).
Arguments Ok {A} a.
Arguments Raise {A} e.

Definition bind {A B : Type} (c : result A) (k : A -> result B) : result B :=
  match c with Ok a => k a | Raise e => Raise e end.

Notation "x <- c ;; k" := (bind c (fun x => k))
  (at level 61, c at next level, right associativity).

Definition is_ok {A : Type} (c : result A) : bool :=
  match c with Ok _ => true | Raise _ => false end.

(** A [for] loop whose body may raise; [acc] is the state the body
    mutates. *)
Fixpoint for_each {A X : Type} (xs : list X) (body : X -> A -> result A)
    (acc : A) : result A :=
  match xs with
  | [] => Ok acc
  | x :: rest => acc' <- body x acc ;; for_each rest body acc'
  end.

(** [a + b] on the values above. *)
Definition py_add (a b : pyval) : result pyval :=
  match as_number a, as_number b with
  | PInt x, PInt y => Ok (PInt (x + y))
  | PStr s, PStr t => Ok (PStr (s ++ t))
  | _, _ => Raise TypeError
  end.

(** ** dict *)

(** A [dict] keeps its entries in insertion order, which is the order
    [create_csv] emits records in, so it is a list of entries; keys are
    compared with [==]. *)
Definition dict (V : Type) : Type := list (pyval * V).

Section Dict.
Context {V : Type}.

(** [d.get(k)] *)
Fixpoint dict_get (d : dict V) (k : pyval) : option V :=
  match d with
  | [] => None
  | (k', v) :: rest => if py_eqb k k' then Some v else dict_get rest k
  end.

(** [k in d] *)
Definition dict_contains (d : dict V) (k : pyval) : bool :=
  match dict_get d k with Some _ => true | None => false end.

(** [d[k]] *)
Definition dict_getitem (d : dict V) (k : pyval) : result V :=
  match dict_get d k with Some v => Ok v | None => Raise KeyError end.

(** [d[k] = v]: an equal key keeps its place and its first key
    object; a new key goes last. *)
Fixpoint dict_set (d : dict V) (k : pyval) (v : V) : dict V :=
  match d with
  | [] => [(k, v)]
  | (k', v') :: rest =>
      if py_eqb k k' then (k', v) :: rest
      else (k', v') :: dict_set rest k v
  end.

(** [if k not in d: d[k] = v] *)
Definition dict_setdefault (d : dict V) (k : pyval) (v : V) : dict V :=
  if dict_contains d k then d else dict_set d k v.

(** [for k in d] *)
Definition dict_keys (d : dict V) : list pyval := map fst d.

(** No two keys of a dict are equal. *)
Fixpoint dict_wf (d : dict V) : bool :=
  match d with
  | [] => true
  | (k, _) :: rest => negb (dict_contains rest k) && dict_wf rest
  end.
End Dict.

(** The values of a dict, each transformed, keys and order kept. *)
Definition dict_map_values {V W : Type} (f : V -> W) (d : dict V) : dict W :=
  map (fun kv => (fst kv, f (snd kv))) d.

(** ** The datetime.date primitive *)

(** [datetime.date] of the Python standard library, as its constructor
    and its comparison behave: the arguments are converted to C ints,
    then the fields are range-checked, year first; dates are ordered
    by (year, month, day). *)
Module datetime.

Definition MINYEAR : Z := 1.
Definition MAXYEAR : Z := 9999.

Record date : Type := mkdate { year : Z; month : Z; day : Z }.

Definition as_c_int (v : pyval) : result Z :=
  match v with
  | PInt z =>
      if (- 2 ^ 31 <=? z) && (z <=? 2 ^ 31 - 1) then Ok z
      else Raise OverflowError
  | PBool b => Ok (Z.b2z b)
  | PStr _ | PNone => Raise TypeError
  end.

Definition is_leap (y : Z) : bool :=
  (y mod 4 =? 0) && (negb (y mod 100 =? 0) || (y mod 400 =? 0)).

Definition days_in_month (y m : Z) : Z :=
  if (m =? 2) && is_leap y then 29
  else nth (Z.to_nat m) [0; 31; 28; 31; 30; 31; 30; 31; 31; 30; 31; 30; 31] 0.

(** [datetime.date(year=y, month=m, day=d)] *)
Definition date_new (y m d : pyval) : result date :=
  y' <- as_c_int y ;;
  m' <- as_c_int m ;;
  d' <- as_c_int d ;;
  if negb ((MINYEAR <=? y') && (y' <=? MAXYEAR)) then Raise ValueError
  else if negb ((1 <=? m') && (m' <=? 12)) then Raise ValueError
  else if negb ((1 <=? d') && (d' <=? days_in_month y' m')) then Raise ValueError
  else Ok (mkdate y' m' d').

(** [a <= b] *)
Definition le (a b : date) : bool :=
  if year a =? year b then
    if month a =? month b then day a <=? day b
    else month a <? month b
  else year a <? year b.

(** [d.toordinal()]: the day number in the proleptic Gregorian
    calendar; 1 is 1 January of year 1. *)
Definition days_before_year (y : Z) : Z :=
  let y1 := y - 1 in y1 * 365 + y1 / 4 - y1 / 100 + y1 / 400.

Definition days_before_month (y m : Z) : Z :=
  nth (Z.to_nat m) [0; 0; 31; 59; 90; 120; 151; 181; 212; 243; 273; 304; 334] 0
  + (if (2 <? m) && is_leap y then 1 else 0).

Definition toordinal (d : date) : Z :=
  days_before_year (year d) + days_before_month (year d) (month d) + day d.

End datetime.

(** ** process_csv.py *)

(** A (year, month) tuple. *)
Definition pytuple : Type := (pyval * pyval)%type.

(** [t[0]] and [t[1]] on a parameter that is a tuple or [None]. *)
Definition subscript0 (t : option pytuple) : result pyval :=
  match t with Some (a, _) => Ok a | None => Raise TypeError end.

Definition subscript1 (t : option pytuple) : result pyval :=
  match t with Some (_, b) => Ok b | None => Raise TypeError end.

Definition check_date_in_range (start_year_month end_year_month : option pytuple)
    (date_year_month : pytuple) : result bool :=
  sy <- subscript0 start_year_month ;;
  sm <- subscript1 start_year_month ;;
  start <- datetime.date_new sy sm (PInt 1) ;;
  ey <- subscript0 end_year_month ;;
  em <- subscript1 end_year_month ;;
  end_ <- datetime.date_new ey em (PInt 1) ;;
  date <- datetime.date_new (fst date_year_month) (snd date_year_month) (PInt 1) ;;
  Ok (datetime.le start date && datetime.le date end_).

(** A row of the data frame, as [iterrows] yields it; [row[col]] reads
    it by position, counting from the end when [col] is negative. *)
Definition row : Type := list pyval.

Definition row_getitem (r : row) (col : Z) : result pyval :=
  let n := Z.of_nat (List.length r) in
  let i := if col <? 0 then n + col else col in
  if (0 <=? i) && (i <? n) then
    match nth_error r (Z.to_nat i) with
    | Some v => Ok v
    | None => Raise IndexError
    end
  else Raise IndexError.

(** [row[col]] where [col] may be the default [None]. *)
Definition row_getitem_opt (r : row) (col : option Z) : result pyval :=
  match col with
  | Some c => row_getitem r c
  | None => Raise KeyError
  end.

(** The methods of the [CrimeData] class that [build_crime_data_class]
    calls: the constructor, [increment_crime] and [fill_gaps]. *)
Class CrimeDataOps (S : Type) : Type := {
  CrimeData_new : S;
  increment_crime : S -> pyval -> pyval -> pyval -> pyval -> pyval -> result S;
  fill_gaps : S -> option pytuple -> option pytuple -> result S
}.

(** [pre_processed_data] stands for the rows [pd.read_csv(path)]
    returns. *)
Definition build_crime_data_class {S : Type} `{CrimeDataOps S}
    (pre_processed_data : list row)
    (col_num_crime_type col_num_year col_num_month col_num_neighbourhood : Z)
    (reading_processed_data : bool) (col_num_occurrences : option Z)
    (start_year_month end_year_month : option pytuple) : result S :=
  let post_processing_data := CrimeData_new in
  if negb reading_processed_data then
    post_processing_data <-
      for_each pre_processed_data (fun row post_processing_data =>
        y <- row_getitem row col_num_year ;;
        m <- row_getitem row col_num_month ;;
        in_range <- check_date_in_range start_year_month end_year_month (y, m) ;;
        if in_range : bool then
          c <- row_getitem row col_num_crime_type ;;
          n <- row_getitem row col_num_neighbourhood ;;
          y <- row_getitem row col_num_year ;;
          m <- row_getitem row col_num_month ;;
          increment_crime post_processing_data c n y m (PInt 1)
        else Ok post_processing_data) post_processing_data ;;
    fill_gaps post_processing_data start_year_month end_year_month
  else
    for_each pre_processed_data (fun row post_processing_data =>
      c <- row_getitem row col_num_crime_type ;;
      n <- row_getitem row col_num_neighbourhood ;;
      y <- row_getitem row col_num_year ;;
      m <- row_getitem row col_num_month ;;
      o <- row_getitem_opt row col_num_occurrences ;;
      increment_crime post_processing_data c n y m o) post_processing_data.

(** [get_vancouver_data], on the rows of crime_data_vancouver.csv. *)
Definition get_vancouver_data {S : Type} `{CrimeDataOps S}
    (rows : list row) : result S :=
  build_crime_data_class rows 0 2 3 1 true (Some 4) None None.

(** The data attributes [create_csv] reads: [crime_occurrences] of a
    [CrimeData] maps a crime to the neighbourhoods, each a
    [NeighbourhoodCrimeOccurrences] whose [occurrences] map a year to
    the months and their counts. *)
Record NeighbourhoodCrimeOccurrences : Type :=
  { occurrences : dict (dict pyval) }.

Record CrimeData : Type :=
  { crime_occurrences : dict (dict NeighbourhoodCrimeOccurrences) }.

(** [formatted_dict]: the five columns of the data frame written out. *)
Record formatted_dict : Type := {
  crime_type : list pyval;
  neighbourhood : list pyval;
  year : list pyval;
  month : list pyval;
  count : list pyval
}.

Definition formatted_dict_append (fd : formatted_dict)
    (crime nbhd y m c : pyval) : formatted_dict :=
  {| crime_type := crime_type fd ++ [crime];
     neighbourhood := neighbourhood fd ++ [nbhd];
     year := year fd ++ [y];
     month := month fd ++ [m];
     count := count fd ++ [c] |}.

(** The result is the dictionary handed to [pd.DataFrame] and written
    with [to_csv]. *)
Definition create_csv (crime_data_class : CrimeData) : result formatted_dict :=
  let formatted_dict :=
    {| crime_type := []; neighbourhood := []; year := []; month := [];
       count := [] |} in
  let co := crime_occurrences crime_data_class in
  for_each (dict_keys co) (fun crime fd =>
    d1 <- dict_getitem co crime ;;
    for_each (dict_keys d1) (fun nbhd fd =>
      d1 <- dict_getitem co crime ;;
      d2 <- dict_getitem d1 nbhd ;;
      for_each (dict_keys (occurrences d2)) (fun y fd =>
        d1 <- dict_getitem co crime ;;
        d2 <- dict_getitem d1 nbhd ;;
        d3 <- dict_getitem (occurrences d2) y ;;
        for_each (dict_keys d3) (fun m fd =>
          d1 <- dict_getitem co crime ;;
          d2 <- dict_getitem d1 nbhd ;;
          d3 <- dict_getitem (occurrences d2) y ;;
          c <- dict_getitem d3 m ;;
          if isinstance_str crime && isinstance_str nbhd && isinstance_int y
             && isinstance_int m && isinstance_int c
          then Ok (formatted_dict_append fd crime nbhd y m c)
          else Ok fd) fd) fd) fd) formatted_dict.

(** The rows of the data frame built from the five columns. *)
Definition record : Type := (pyval * pyval * pyval * pyval * pyval)%type.

Fixpoint zip5 (a b c d e : list pyval) : list record :=
  match a, b, c, d, e with
  | x :: a', y :: b', z :: c', u :: d', v :: e' =>
      (x, y, z, u, v) :: zip5 a' b' c' d' e'
  | _, _, _, _, _ => []
  end.

Definition records (fd : formatted_dict) : list record :=
  zip5 (crime_type fd) (neighbourhood fd) (year fd) (month fd) (count fd).

(** ** crime_data.py: the aggregate store *)

(** [range(lo, hi)] *)
Definition py_range (lo hi : Z) : list Z :=
  map (fun i => lo + Z.of_nat i) (seq 0 (Z.to_nat (hi - lo))).

(** An argument used as an integer ([operator.index]). *)
Definition as_int (v : pyval) : result Z :=
  match v with
  | PInt z => Ok z
  | PBool b => Ok (Z.b2z b)
  | PStr _ | PNone => Raise TypeError
  end.

(** Modelled from the spec: the range iteration of [fill_gaps] in
    crime_data.py, which is not among the sources.  The months of the
    inclusive range in calendar order: year ascending, then month
    ascending, from the start month in the first year, to the end
    month in the last, 1 to 12 in the years between; an empty list
    when start is after end. *)
Definition months_in_range (start end_ : Z * Z) : list (Z * Z) :=
  flat_map (fun y =>
      map (fun m => (y, m))
        (py_range (if y =? fst start then snd start else 1)
                  ((if y =? fst end_ then snd end_ else 12) + 1)))
    (py_range (fst start) (fst end_ + 1)).

(** Modelled from the spec: the increment of one series, of
    crime_data.py, which is not among the sources: adds the amount to
    the count of (year, month), creating the year and the month on
    demand, the count starting at 0. *)
Definition increment_data (nco : NeighbourhoodCrimeOccurrences)
    (y m amount : pyval) : result NeighbourhoodCrimeOccurrences :=
  let months :=
    match dict_get (occurrences nco) y with Some ms => ms | None => [] end in
  let old :=
    match dict_get months m with Some c => c | None => PInt 0 end in
  c <- py_add old amount ;;
  Ok {| occurrences := dict_set (occurrences nco) y (dict_set months m c) |}.

(** Modelled from the spec: gap filling of one series, of crime_data.py,
    which is not among the sources: a month of the range that has no
    entry gets the count 0, an existing entry is left as it is. *)
Definition fill_month (occ : dict (dict pyval)) (ym : Z * Z)
    : dict (dict pyval) :=
  let months :=
    match dict_get occ (PInt (fst ym)) with Some ms => ms | None => [] end in
  dict_set occ (PInt (fst ym)) (dict_setdefault months (PInt (snd ym)) (PInt 0)).

(** Modelled from the spec: the same over the months of a range, in
    their order. *)
Definition fill_series (months : list (Z * Z))
    (nco : NeighbourhoodCrimeOccurrences) : NeighbourhoodCrimeOccurrences :=
  {| occurrences := fold_left fill_month months (occurrences nco) |}.

Module CrimeDataImpl.

(** Modelled from the spec: [CrimeData()] of crime_data.py, which is
    not among the sources: the store is created empty. *)
Definition new : CrimeData := {| crime_occurrences := [] |}.

(** Modelled from the spec: [CrimeData.increment_crime] of
    crime_data.py, which is not among the sources: adds the amount to
    the count at the four-level key path, creating the levels on
    demand. *)
Definition increment_crime (cd : CrimeData)
    (crime nbhd y m amount : pyval) : result CrimeData :=
  let nbhds :=
    match dict_get (crime_occurrences cd) crime with
    | Some ns => ns | None => [] end in
  let nco :=
    match dict_get nbhds nbhd with
    | Some s => s | None => {| occurrences := [] |} end in
  nco' <- increment_data nco y m amount ;;
  Ok {| crime_occurrences :=
          dict_set (crime_occurrences cd) crime (dict_set nbhds nbhd nco') |}.

(** Modelled from the spec: [CrimeData.fill_gaps] of crime_data.py,
    which is not among the sources: every (crime, neighbourhood) series
    of the store is filled over the months of the inclusive range;
    no series is added. *)
Definition fill_gaps (cd : CrimeData)
    (start_year_month end_year_month : option pytuple) : result CrimeData :=
  sy <- bind (subscript0 start_year_month) as_int ;;
  sm <- bind (subscript1 start_year_month) as_int ;;
  ey <- bind (subscript0 end_year_month) as_int ;;
  em <- bind (subscript1 end_year_month) as_int ;;
  let months := months_in_range (sy, sm) (ey, em) in
  Ok {| crime_occurrences :=
          dict_map_values (dict_map_values (fill_series months))
            (crime_occurrences cd) |}.

End CrimeDataImpl.

#[export] Instance CrimeData_ops : CrimeDataOps CrimeData := {
  CrimeData_new := CrimeDataImpl.new;
  increment_crime := CrimeDataImpl.increment_crime;
  fill_gaps := CrimeDataImpl.fill_gaps
}.

(** The series of a (crime, neighbourhood) pair and the count stored
    at a key path, if any. *)
Definition lookup_series (cd : CrimeData) (crime nbhd : pyval)
    : option NeighbourhoodCrimeOccurrences :=
  match dict_get (crime_occurrences cd) crime with
  | Some ns => dict_get ns nbhd
  | None => None
  end.

Definition occ_count (occ : dict (dict pyval)) (y m : pyval) : option pyval :=
  match dict_get occ y with
  | Some ms => dict_get ms m
  | None => None
  end.

Definition series_count (nco : NeighbourhoodCrimeOccurrences) (y m : pyval)
    : option pyval :=
  occ_count (occurrences nco) y m.

Definition lookup_count (cd : CrimeData) (crime nbhd y m : pyval)
    : option pyval :=
  match lookup_series cd crime nbhd with
  | Some nco => series_count nco y m
  | None => None
  end.

(** The leaves of the store in iteration order. *)
Definition leaves (cd : CrimeData) : list record :=
  flat_map (fun e1 =>
    flat_map (fun e2 =>
      flat_map (fun e3 =>
        map (fun e4 => (fst e1, fst e2, fst e3, fst e4, snd e4)) (snd e3))
        (occurrences (snd e2)))
      (snd e1))
    (crime_occurrences cd).

(** A record of the shape (str, str, int, int, int). *)
Definition conforming (r : record) : bool :=
  let '(crime, nbhd, y, m, c) := r in
  isinstance_str crime && isinstance_str nbhd && isinstance_int y
  && isinstance_int m && isinstance_int c.

(** No level of the store holds two equal keys. *)
Definition series_wf (nco : NeighbourhoodCrimeOccurrences) : bool :=
  dict_wf (occurrences nco)
  && forallb (fun e => dict_wf (snd e)) (occurrences nco).

Definition neighbourhoods_wf (ns : dict NeighbourhoodCrimeOccurrences) : bool :=
  dict_wf ns && forallb (fun e => series_wf (snd e)) ns.

Definition store_wf (cd : CrimeData) : bool :=
  dict_wf (crime_occurrences cd)
  && forallb (fun e => neighbourhoods_wf (snd e)) (crime_occurrences cd).

(** The export of a freshly built store, for the examples. *)
Definition export (cd : result CrimeData) : result (list record) :=
  cd <- cd ;; fd <- create_csv cd ;; Ok (records fd).

Definition example_rows : list row :=
  [ [PStr "Theft"; PInt 2003; PInt 1; PStr "X"];
    [PStr "Theft"; PInt 2003; PInt 1; PStr "X"];
    [PStr "Theft"; PInt 2003; PInt 3; PStr "X"] ].

(** ** Specification vocabulary *)

(** A calendar (year, month): a year [datetime.date] accepts and a
    month of 1 to 12. *)
Definition valid_year_month (y m : Z) : Prop :=
  datetime.MINYEAR <= y <= datetime.MAXYEAR /\ 1 <= m <= 12.

(** The calendar position of the first day of a month: its day number. *)
Definition calendar_position (y m : Z) : Z :=
  datetime.toordinal (datetime.mkdate y m 1).

(** The number of the month, counting every month from year 0. *)
Definition month_index (y m : Z) : Z := y * 12 + (m - 1).

(** A month argument that is an integer outside 1 to 12. *)
Definition month_out_of_range (t : pytuple) : Prop :=
  exists m, as_number (snd t) = PInt m /\ (m < 1 \/ 12 < m).


(** A call of a method of the store, and a sequence of calls run in
    order on a store. *)
Inductive call : Type :=
| CallIncrementCrime (crime nbhd y m amount : pyval)
| CallFillGaps (start_year_month end_year_month : option pytuple).

Definition run_call {S : Type} `{CrimeDataOps S} (c : call) (s : S) : result S :=
  match c with
  | CallIncrementCrime crime nbhd y m amount =>
      increment_crime s crime nbhd y m amount
  | CallFillGaps a b => fill_gaps s a b
  end.

Definition run_calls {S : Type} `{CrimeDataOps S} (cs : list call) (s : S)
    : result S :=
  for_each cs run_call s.

Definition is_increment (c : call) : bool :=
  match c with CallIncrementCrime _ _ _ _ _ => true | CallFillGaps _ _ => false end.

Definition call_amount (c : call) : option pyval :=
  match c with
  | CallIncrementCrime _ _ _ _ amount => Some amount
  | CallFillGaps _ _ => None
  end.

(** [filter] and [map] with a function that may raise. *)
Fixpoint filterM {X : Type} (p : X -> result bool) (xs : list X)
    : result (list X) :=
  match xs with
  | [] => Ok []
  | x :: rest =>
      b <- p x ;;
      sel <- filterM p rest ;;
      Ok (if b : bool then x :: sel else sel)
  end.

Fixpoint mapM {X Y : Type} (f : X -> result Y) (xs : list X) : result (list Y) :=
  match xs with
  | [] => Ok []
  | x :: rest => y <- f x ;; ys <- mapM f rest ;; Ok (y :: ys)
  end.

(** Whether the (year, month) of a row lies in the range. *)
Definition row_in_range (start_year_month end_year_month : option pytuple)
    (col_num_year col_num_month : Z) (r : row) : result bool :=
  y <- row_getitem r col_num_year ;;
  m <- row_getitem r col_num_month ;;
  check_date_in_range start_year_month end_year_month (y, m).

(** The increment at the key of a row, by an amount read off the row. *)
Definition row_increment
    (col_num_crime_type col_num_year col_num_month col_num_neighbourhood : Z)
    (amount : row -> result pyval) (r : row) : result call :=
  c <- row_getitem r col_num_crime_type ;;
  n <- row_getitem r col_num_neighbourhood ;;
  y <- row_getitem r col_num_year ;;
  m <- row_getitem r col_num_month ;;
  a <- amount r ;;
  Ok (CallIncrementCrime c n y m a).

(** Raw mode as a sequence of calls: an increment by 1 at the key of
    each row of the range, in row order, then one gap fill with the
    range. *)
Definition raw_calls
    (col_num_crime_type col_num_year col_num_month col_num_neighbourhood : Z)
    (start_year_month end_year_month : option pytuple) (rows : list row)
    : result (list call) :=
  sel <- filterM (row_in_range start_year_month end_year_month
                    col_num_year col_num_month) rows ;;
  incs <- mapM (row_increment col_num_crime_type col_num_year col_num_month
                  col_num_neighbourhood (fun _ => Ok (PInt 1))) sel ;;
  Ok (incs ++ [CallFillGaps start_year_month end_year_month]).

(** Processed mode as a sequence of calls: an increment at the key of
    every row, by the value of its count column. *)
Definition processed_calls
    (col_num_crime_type col_num_year col_num_month col_num_neighbourhood : Z)
    (col_num_occurrences : option Z) (rows : list row) : result (list call) :=
  mapM (row_increment col_num_crime_type col_num_year col_num_month
          col_num_neighbourhood
          (fun r => row_getitem_opt r col_num_occurrences)) rows.


(** (year, month) pairs in calendar order, and the months of 1 to 12
    of an inclusive range. *)
Definition ym_le (a b : Z * Z) : Prop :=
  fst a < fst b \/ (fst a = fst b /\ snd a <= snd b).

Definition in_inclusive_range (start end_ ym : Z * Z) : Prop :=
  1 <= snd ym <= 12 /\ ym_le start ym /\ ym_le ym end_.

(** Whether the keys (y, m) are equal to a month of the list. *)
Definition in_months (months : list (Z * Z)) (y m : pyval) : bool :=
  existsb (fun ym => py_eqb y (PInt (fst ym)) && py_eqb m (PInt (snd ym))) months.

(** The store with the count at a key path set, the levels of the
    path created on demand. *)
Definition store_put (cd : CrimeData) (crime nbhd y m v : pyval) : CrimeData :=
  let nbhds :=
    match dict_get (crime_occurrences cd) crime with
    | Some ns => ns | None => [] end in
  let occ :=
    match dict_get nbhds nbhd with
    | Some s => occurrences s | None => [] end in
  let months :=
    match dict_get occ y with Some ms => ms | None => [] end in
  {| crime_occurrences :=
       dict_set (crime_occurrences cd) crime
         (dict_set nbhds nbhd
            {| occurrences := dict_set occ y (dict_set months m v) |}) |}.

(** The count at a key path, 0 when there is none. *)
Definition count_or_zero (cd : CrimeData) (crime nbhd y m : pyval) : pyval :=
  match lookup_count cd crime nbhd y m with Some v => v | None => PInt 0 end.

(** Successive [increment_crime] calls at one key path. *)
Definition increment_all (cd : CrimeData) (crime nbhd y m : pyval)
    (amounts : list Z) : result CrimeData :=
  for_each amounts
    (fun a cd => CrimeDataImpl.increment_crime cd crime nbhd y m (PInt a)) cd.

Definition sum_amounts (amounts : list Z) : Z := fold_right Z.add 0 amounts.

(** The count of a record, and a count that is a non-negative integer. *)
Definition record_count (r : record) : pyval := snd r.

Definition nonneg_count (v : pyval) : Prop := exists z, v = PInt z /\ 0 <= z.

(** A call of the store's lifecycle with integer arguments: an
    increment by an integer amount, or a gap fill over a range of
    integer (year, month) bounds. *)
Definition integer_call (c : call) : Prop :=
  match c with
  | CallIncrementCrime _ _ _ _ amount => exists z, amount = PInt z
  | CallFillGaps a b =>
      exists sy sm ey em,
        a = Some (PInt sy, PInt sm) /\ b = Some (PInt ey, PInt em)
  end.

(** The same, every increment being by a non-negative amount. *)
Definition nonneg_call (c : call) : Prop :=
  match c with
  | CallIncrementCrime _ _ _ _ amount => nonneg_count amount
  | CallFillGaps a b =>
      exists sy sm ey em,
        a = Some (PInt sy, PInt sm) /\ b = Some (PInt ey, PInt em)
  end.


(** The store invariant of the lifecycle: no level holds two equal
    keys, and every count is a non-negative integer. *)
Definition counts_nonneg (cd : CrimeData) : Prop :=
  store_wf cd = true
  /\ forall crime nbhd y m v,
       lookup_count cd crime nbhd y m = Some v -> nonneg_count v.


(** The five columns that hold a list of records. *)
Definition fd_of_records (rs : list record) : formatted_dict :=
  {| crime_type := map (fun r => fst (fst (fst (fst r)))) rs;
     neighbourhood := map (fun r => snd (fst (fst (fst r)))) rs;
     year := map (fun r => snd (fst (fst r))) rs;
     month := map (fun r => snd (fst r)) rs;
     count := map (fun r => snd r) rs |}.


(** A store with two leaves that are not of the exported shape: a
    neighbourhood that is [None], and a count that is a string. *)
Definition example_store : CrimeData :=
  {| crime_occurrences :=
       [ (PStr "Theft",
          [ (PStr "X",
             {| occurrences :=
                  [ (PInt 2003, [ (PInt 1, PInt 2); (PInt 2, PStr "3") ]) ] |});
            (PNone,
             {| occurrences := [ (PInt 2003, [ (PInt 1, PInt 1) ]) ] |}) ]);
         (PStr "Mischief",
          [ (PStr "Y",
             {| occurrences := [ (PInt 2004, [ (PInt 12, PInt 0) ]) ] |}) ]) ] |}.


(** Whether a record sits at a key path. *)
Definition key_matches (crime nbhd y m : pyval) (r : record) : bool :=
  let '(c', n', y', m', _) := r in
  py_eqb crime c' && py_eqb nbhd n' && py_eqb y y' && py_eqb m m'.


(** The month that follows a month of 1 to 12. *)
Definition next_month (ym : Z * Z) : Z * Z :=
  if snd ym =? 12 then (fst ym + 1, 1) else (fst ym, snd ym + 1).


(** A tuple of two integers that are a calendar (year, month). *)
Definition calendar_pair (t : pytuple) : Prop :=
  exists y m, as_number (fst t) = PInt y /\ as_number (snd t) = PInt m
              /\ valid_year_month y m.

(** Whether a row passes the date test of raw mode. *)
Definition row_selected (start_year_month end_year_month : option pytuple)
    (col_num_year col_num_month : Z) (r : row) : bool :=
  match row_in_range start_year_month end_year_month col_num_year col_num_month r
  with
  | Ok true => true
  | _ => false
  end.




(** What the loop of raw mode does with one row. *)
Definition raw_step {S : Type} `{CrimeDataOps S}
    (col_num_crime_type col_num_year col_num_month col_num_neighbourhood : Z)
    (start_year_month end_year_month : option pytuple)
    (row : row) (post_processing_data : S) : result S :=
  y <- row_getitem row col_num_year ;;
  m <- row_getitem row col_num_month ;;
  in_range <- check_date_in_range start_year_month end_year_month (y, m) ;;
  if in_range : bool then
    c <- row_getitem row col_num_crime_type ;;
    n <- row_getitem row col_num_neighbourhood ;;
    y <- row_getitem row col_num_year ;;
    m <- row_getitem row col_num_month ;;
    increment_crime post_processing_data c n y m (PInt 1)
  else Ok post_processing_data.


(** Whether a call is an increment at a key path, or in a series; the
    integer amount of an increment; the sum of the amounts of the
    increments at a key path. *)
Definition call_at (crime nbhd y m : pyval) (cl : call) : bool :=
  match cl with
  | CallIncrementCrime c' n' y' m' _ =>
      py_eqb crime c' && py_eqb nbhd n' && py_eqb y y' && py_eqb m m'
  | CallFillGaps _ _ => false
  end.

Definition call_on_series (crime nbhd : pyval) (cl : call) : bool :=
  match cl with
  | CallIncrementCrime c' n' _ _ _ => py_eqb crime c' && py_eqb nbhd n'
  | CallFillGaps _ _ => false
  end.

Definition call_amount_z (cl : call) : Z :=
  match cl with
  | CallIncrementCrime _ _ _ _ (PInt a) => a
  | _ => 0
  end.

Definition total_at (crime nbhd y m : pyval) (calls : list call) : Z :=
  fold_right (fun cl acc => call_amount_z cl + acc) 0
    (filter (call_at crime nbhd y m) calls).

(** An increment by an integer amount. *)
Definition integer_increment (cl : call) : Prop :=
  exists c n y m a, cl = CallIncrementCrime c n y m (PInt a).

(** The count at a key path as an integer, 0 when there is none. *)
Definition count_z (cd : CrimeData) (crime nbhd y m : pyval) : Z :=
  match count_or_zero cd crime nbhd y m with PInt z => z | _ => 0 end.

(** Every count of the store is an integer. *)
Definition int_counts (cd : CrimeData) : Prop :=
  forall crime nbhd y m v,
    lookup_count cd crime nbhd y m = Some v -> exists z, v = PInt z.

Definition is_some {A : Type} (o : option A) : bool :=
  match o with Some _ => true | None => false end.

(** Whether a row passes the date test of raw mode and sits at a key
    path, or in a series. *)
Definition cell_is (r : row) (col : Z) (k : pyval) : bool :=
  match row_getitem r col with Ok v => py_eqb k v | Raise _ => false end.

Definition row_at
    (col_num_crime_type col_num_year col_num_month col_num_neighbourhood : Z)
    (start_year_month end_year_month : option pytuple)
    (crime nbhd y m : pyval) (r : row) : bool :=
  row_selected start_year_month end_year_month col_num_year col_num_month r
  && cell_is r col_num_crime_type crime && cell_is r col_num_neighbourhood nbhd
  && cell_is r col_num_year y && cell_is r col_num_month m.

Definition row_on_series
    (col_num_crime_type col_num_year col_num_month col_num_neighbourhood : Z)
    (start_year_month end_year_month : option pytuple)
    (crime nbhd : pyval) (r : row) : bool :=
  row_selected start_year_month end_year_month col_num_year col_num_month r
  && cell_is r col_num_crime_type crime && cell_is r col_num_neighbourhood nbhd.


(** Whether a row sits at a key path, whatever its date, and the
    integer in its count column, 0 when there is none. *)
Definition row_has_key
    (col_num_crime_type col_num_year col_num_month col_num_neighbourhood : Z)
    (crime nbhd y m : pyval) (r : row) : bool :=
  cell_is r col_num_crime_type crime && cell_is r col_num_neighbourhood nbhd
  && cell_is r col_num_year y && cell_is r col_num_month m.

Definition row_count_z (col_num_occurrences : option Z) (r : row) : Z :=
  match row_getitem_opt r col_num_occurrences with
  | Ok (PInt z) => z
  | _ => 0
  end.

Definition sum_counts (col_num_occurrences : option Z) (rows : list row) : Z :=
  fold_right (fun r acc => row_count_z col_num_occurrences r + acc) 0 rows.

(** * Properties *)

(** ** Key equality *)

Lemma py_eqb_true (a b : pyval) :
  py_eqb a b = true <-> as_number a = as_number b.
Proof.
  unfold py_eqb. destruct (pyval_eq_dec (as_number a) (as_number b));
    split; intros; congruence.
Qed.

Lemma py_eqb_false (a b : pyval) :
  py_eqb a b = false <-> as_number a <> as_number b.
Proof.
  unfold py_eqb. destruct (pyval_eq_dec (as_number a) (as_number b));
    split; intros; congruence.
Qed.

(** Case analysis on every key comparison in sight, each turned into
    an equation between numeric readings. *)
Ltac key_cases :=
  repeat match goal with
  | H : py_eqb _ _ = true |- _ => apply py_eqb_true in H
  | H : py_eqb _ _ = false |- _ => apply py_eqb_false in H
  | |- context [py_eqb ?a ?b] => destruct (py_eqb a b) eqn:?
  | H : context [py_eqb ?a ?b] |- _ => destruct (py_eqb a b) eqn:?
  end.

Lemma py_eqb_refl (a : pyval) : py_eqb a a = true.
Proof. apply py_eqb_true. reflexivity. Qed.

Lemma py_eqb_sym (a b : pyval) : py_eqb a b = py_eqb b a.
Proof. key_cases; congruence. Qed.

Lemma py_eqb_PInt (x y : Z) : py_eqb (PInt x) (PInt y) = (x =? y).
Proof.
  destruct (Z.eqb_spec x y) as [->|Hne].
  - apply py_eqb_refl.
  - apply py_eqb_false. simpl. congruence.
Qed.

(** ** dict *)

Section DictLemmas.
Context {V : Type}.
Implicit Types (d : dict V) (k : pyval) (v : V).

Lemma dict_get_equiv d k k' :
  py_eqb k k' = true -> dict_get d k = dict_get d k'.
Proof.
  intros Hk. induction d as [|[k0 v0] rest IH]; simpl; [reflexivity|].
  rewrite IH. key_cases; congruence.
Qed.

Lemma dict_get_set d k v k' :
  dict_get (dict_set d k v) k' = if py_eqb k' k then Some v else dict_get d k'.
Proof.
  induction d as [|[k0 v0] rest IH]; simpl.
  - reflexivity.
  - destruct (py_eqb k k0) eqn:E; simpl.
    + key_cases; congruence.
    + rewrite IH. key_cases; congruence.
Qed.

Lemma dict_get_set_same d k v : dict_get (dict_set d k v) k = Some v.
Proof. rewrite dict_get_set, py_eqb_refl. reflexivity. Qed.

Lemma dict_set_unchanged d k v : dict_get d k = Some v -> dict_set d k v = d.
Proof.
  induction d as [|[k0 v0] rest IH]; simpl; [discriminate|].
  destruct (py_eqb k k0); intros H.
  - congruence.
  - rewrite IH by assumption. reflexivity.
Qed.

Lemma dict_contains_set d k v k' :
  dict_contains (dict_set d k v) k' = py_eqb k' k || dict_contains d k'.
Proof.
  unfold dict_contains. rewrite dict_get_set. destruct (py_eqb k' k); reflexivity.
Qed.

Lemma dict_wf_set d k v : dict_wf d = true -> dict_wf (dict_set d k v) = true.
Proof.
  induction d as [|[k0 v0] rest IH]; simpl; [reflexivity|].
  intros H. apply andb_true_iff in H as [H1 H2].
  destruct (py_eqb k k0) eqn:E; simpl.
  - rewrite H1, H2. reflexivity.
  - rewrite dict_contains_set, IH by assumption.
    rewrite py_eqb_sym, E. simpl. rewrite H1. reflexivity.
Qed.

Lemma dict_wf_setdefault d k v :
  dict_wf d = true -> dict_wf (dict_setdefault d k v) = true.
Proof.
  unfold dict_setdefault. destruct (dict_contains d k); [tauto|apply dict_wf_set].
Qed.

Lemma dict_get_setdefault d k v k' :
  dict_get (dict_setdefault d k v) k' =
  match dict_get d k' with
  | Some v' => Some v'
  | None => if py_eqb k' k then Some v else None
  end.
Proof.
  unfold dict_setdefault, dict_contains.
  destruct (dict_get d k) eqn:E.
  - destruct (dict_get d k') eqn:E'; [reflexivity|].
    destruct (py_eqb k' k) eqn:Ek; [|reflexivity].
    rewrite (dict_get_equiv d k' k Ek) in E'. congruence.
  - rewrite dict_get_set. destruct (py_eqb k' k) eqn:Ek.
    + rewrite (dict_get_equiv d k' k Ek), E. reflexivity.
    + destruct (dict_get d k'); reflexivity.
Qed.

Lemma dict_setdefault_unchanged d k v :
  dict_contains d k = true -> dict_setdefault d k v = d.
Proof. unfold dict_setdefault. intros ->. reflexivity. Qed.

Lemma dict_get_In d k v :
  dict_get d k = Some v -> exists k', In (k', v) d /\ py_eqb k k' = true.
Proof.
  induction d as [|[k0 v0] rest IH]; simpl; [discriminate|].
  destruct (py_eqb k k0) eqn:E; intros H.
  - exists k0. split; [left; congruence|assumption].
  - destruct (IH H) as (k' & Hin & Hk). exists k'. auto.
Qed.

Lemma dict_get_None_In d k k' v :
  dict_get d k = None -> In (k', v) d -> py_eqb k k' = false.
Proof.
  induction d as [|[k0 v0] rest IH]; simpl; [tauto|].
  destruct (py_eqb k k0) eqn:E; [discriminate|].
  intros H [Heq|Hin]; [congruence|auto].
Qed.

Lemma dict_wf_In_get d k v :
  dict_wf d = true -> In (k, v) d -> dict_get d k = Some v.
Proof.
  induction d as [|[k0 v0] rest IH]; simpl; [tauto|].
  intros H [Heq|Hin]; apply andb_true_iff in H as [H1 H2].
  - inversion Heq; subst. rewrite py_eqb_refl. reflexivity.
  - destruct (py_eqb k k0) eqn:E.
    + unfold dict_contains in H1.
      rewrite <- (dict_get_equiv rest k k0 E), (IH H2 Hin) in H1. discriminate.
    + auto.
Qed.

End DictLemmas.

Lemma dict_get_map_values {V W : Type} (f : V -> W) (d : dict V) (k : pyval) :
  dict_get (dict_map_values f d) k = option_map f (dict_get d k).
Proof.
  induction d as [|[k0 v0] rest IH]; simpl; [reflexivity|].
  destruct (py_eqb k k0); [reflexivity|assumption].
Qed.

Lemma dict_wf_map_values {V W : Type} (f : V -> W) (d : dict V) :
  dict_wf (dict_map_values f d) = dict_wf d.
Proof.
  induction d as [|[k0 v0] rest IH]; simpl; [reflexivity|].
  rewrite IH. unfold dict_contains.
  change (map (fun kv => (fst kv, f (snd kv))) rest) with (dict_map_values f rest).
  rewrite dict_get_map_values. destruct (dict_get rest k0); reflexivity.
Qed.

(** ** Dates *)

Lemma date_new_valid (y m : Z) :
  valid_year_month y m ->
  datetime.date_new (PInt y) (PInt m) (PInt 1) = Ok (datetime.mkdate y m 1).
Proof.
  unfold valid_year_month, datetime.MINYEAR, datetime.MAXYEAR.
  intros [Hy Hm]. unfold datetime.date_new, datetime.as_c_int.
  replace ((- 2 ^ 31 <=? y) && (y <=? 2 ^ 31 - 1)) with true
    by (symmetry; apply andb_true_iff; split; apply Z.leb_le; lia).
  replace ((- 2 ^ 31 <=? m) && (m <=? 2 ^ 31 - 1)) with true
    by (symmetry; apply andb_true_iff; split; apply Z.leb_le; lia).
  cbn [bind]. change ((- 2 ^ 31 <=? 1) && (1 <=? 2 ^ 31 - 1)) with true.
  cbn [bind]. unfold datetime.MINYEAR, datetime.MAXYEAR.
  replace ((1 <=? y) && (y <=? 9999)) with true
    by (symmetry; apply andb_true_iff; split; apply Z.leb_le; lia).
  replace ((1 <=? m) && (m <=? 12)) with true
    by (symmetry; apply andb_true_iff; split; apply Z.leb_le; lia).
  cbn [negb].
  assert (Hd : 1 <= datetime.days_in_month y m).
  { unfold datetime.days_in_month.
    destruct ((m =? 2) && datetime.is_leap y); [lia|].
    assert (Hc : m = 1 \/ m = 2 \/ m = 3 \/ m = 4 \/ m = 5 \/ m = 6 \/ m = 7
                 \/ m = 8 \/ m = 9 \/ m = 10 \/ m = 11 \/ m = 12) by lia.
    repeat destruct Hc as [->|Hc]; try subst m; simpl; lia. }
  replace (1 <=? datetime.days_in_month y m) with true
    by (symmetry; apply Z.leb_le; exact Hd).
  reflexivity.
Qed.

Lemma days_before_month_bounds (y m : Z) :
  1 <= m <= 12 -> 0 <= datetime.days_before_month y m <= 335.
Proof.
  intros Hm. unfold datetime.days_before_month.
  assert (Hc : m = 1 \/ m = 2 \/ m = 3 \/ m = 4 \/ m = 5 \/ m = 6 \/ m = 7
               \/ m = 8 \/ m = 9 \/ m = 10 \/ m = 11 \/ m = 12) by lia.
  repeat destruct Hc as [->|Hc]; try subst m;
    destruct (datetime.is_leap y); simpl; lia.
Qed.

Lemma days_before_month_lt (y m1 m2 : Z) :
  1 <= m1 -> m1 < m2 -> m2 <= 12 ->
  datetime.days_before_month y m1 < datetime.days_before_month y m2.
Proof.
  intros H1 H12 H2. unfold datetime.days_before_month.
  assert (Hc : m1 = 1 \/ m1 = 2 \/ m1 = 3 \/ m1 = 4 \/ m1 = 5 \/ m1 = 6
               \/ m1 = 7 \/ m1 = 8 \/ m1 = 9 \/ m1 = 10 \/ m1 = 11) by lia.
  assert (Hd : m2 = 2 \/ m2 = 3 \/ m2 = 4 \/ m2 = 5 \/ m2 = 6 \/ m2 = 7
               \/ m2 = 8 \/ m2 = 9 \/ m2 = 10 \/ m2 = 11 \/ m2 = 12) by lia.
  destruct (datetime.is_leap y);
    repeat destruct Hc as [->|Hc]; try subst m1;
    repeat destruct Hd as [->|Hd]; try subst m2; simpl; lia.
Qed.

Lemma days_before_year_lt (y1 y2 : Z) :
  y1 < y2 ->
  datetime.days_before_year y1 + 365 <= datetime.days_before_year y2.
Proof.
  intros H. unfold datetime.days_before_year. cbv zeta.
  Z.div_mod_to_equations. lia.
Qed.

(** [datetime.le] on first-of-month dates is the order of the day
    numbers. *)
Lemma date_le_calendar_position (y1 m1 y2 m2 : Z) :
  1 <= m1 <= 12 -> 1 <= m2 <= 12 ->
  datetime.le (datetime.mkdate y1 m1 1) (datetime.mkdate y2 m2 1)
  = (calendar_position y1 m1 <=? calendar_position y2 m2).
Proof.
  intros H1 H2. unfold datetime.le, calendar_position, datetime.toordinal.
  cbn [datetime.year datetime.month datetime.day].
  pose proof (days_before_month_bounds y1 m1 H1) as B1.
  pose proof (days_before_month_bounds y2 m2 H2) as B2.
  destruct (Z.eqb_spec y1 y2) as [->|Hy].
  - destruct (Z.eqb_spec m1 m2) as [->|Hm].
    + symmetry. apply Z.leb_le. lia.
    + destruct (Z.ltb_spec m1 m2) as [Hlt|Hge]; symmetry.
      * apply Z.leb_le.
        pose proof (days_before_month_lt y2 m1 m2 ltac:(lia) Hlt ltac:(lia)). lia.
      * apply Z.leb_gt.
        pose proof (days_before_month_lt y2 m2 m1 ltac:(lia) ltac:(lia) ltac:(lia)).
        lia.
  - destruct (Z.ltb_spec y1 y2) as [Hlt|Hge]; symmetry.
    + apply Z.leb_le. pose proof (days_before_year_lt y1 y2 Hlt). lia.
    + apply Z.leb_gt.
      pose proof (days_before_year_lt y2 y1 ltac:(lia)). lia.
Qed.

(** It is also the order of the month numbers. *)
Lemma date_le_month_index (y1 m1 y2 m2 : Z) :
  1 <= m1 <= 12 -> 1 <= m2 <= 12 ->
  datetime.le (datetime.mkdate y1 m1 1) (datetime.mkdate y2 m2 1)
  = (month_index y1 m1 <=? month_index y2 m2).
Proof.
  intros H1 H2. unfold datetime.le, month_index.
  cbn [datetime.year datetime.month datetime.day].
  destruct (Z.eqb_spec y1 y2) as [->|Hy].
  - destruct (Z.eqb_spec m1 m2) as [->|Hm].
    + symmetry. apply Z.leb_le. lia.
    + destruct (Z.ltb_spec m1 m2); symmetry; [apply Z.leb_le|apply Z.leb_gt]; lia.
  - destruct (Z.ltb_spec y1 y2); symmetry; [apply Z.leb_le|apply Z.leb_gt]; lia.
Qed.

Lemma check_date_in_range_valid (sy sm ey em y m : Z) :
  valid_year_month sy sm -> valid_year_month ey em -> valid_year_month y m ->
  check_date_in_range (Some (PInt sy, PInt sm)) (Some (PInt ey, PInt em))
    (PInt y, PInt m)
  = Ok (datetime.le (datetime.mkdate sy sm 1) (datetime.mkdate y m 1)
        && datetime.le (datetime.mkdate y m 1) (datetime.mkdate ey em 1)).
Proof.
  intros Hs He Hd. unfold check_date_in_range. cbn [subscript0 subscript1 bind fst snd].
  rewrite (date_new_valid sy sm Hs). cbn [bind].
  rewrite (date_new_valid ey em He). cbn [bind].
  rewrite (date_new_valid y m Hd). reflexivity.
Qed.

(** A date with an integer month outside 1 to 12 cannot be built. *)
Lemma date_new_month_out_of_range (y mv : pyval) (m : Z) (d : datetime.date) :
  as_number mv = PInt m -> m < 1 \/ 12 < m ->
  datetime.date_new y mv (PInt 1) = Ok d -> False.
Proof.
  intros Hn Hm. unfold datetime.date_new.
  destruct (datetime.as_c_int y) as [y'|]; cbn [bind]; [|discriminate].
  destruct (datetime.as_c_int mv) as [m'|] eqn:Em; cbn [bind];
    [|discriminate].
  assert (m' = m) as ->.
  { destruct mv as [s|z|b|]; cbn [as_number datetime.as_c_int] in Hn, Em;
      try discriminate.
    - destruct (_ && _) in Em; congruence.
    - congruence. }
  destruct (datetime.as_c_int (PInt 1)); cbn [bind]; [|discriminate].
  destruct (negb _); [discriminate|].
  replace ((1 <=? m) && (m <=? 12)) with false.
  - discriminate.
  - symmetry. apply andb_false_iff.
    destruct Hm; [left; apply Z.leb_gt|right; apply Z.leb_gt]; lia.
Qed.

(** ** The range predicate *)

(** C2. For calendar (year, month) bounds and candidate,
    [check_date_in_range] returns true exactly when the day number of
    the candidate's first of the month lies between those of the two
    bounds, both ends included; so the order is right across year
    boundaries, and the five listed calls return what the
    specification lists. *)
Theorem check_date_in_range_correct :
  (forall sy sm ey em y m : Z,
      valid_year_month sy sm -> valid_year_month ey em ->
      valid_year_month y m ->
      check_date_in_range (Some (PInt sy, PInt sm)) (Some (PInt ey, PInt em))
        (PInt y, PInt m)
      = Ok ((calendar_position sy sm <=? calendar_position y m)
            && (calendar_position y m <=? calendar_position ey em)))
  /\ check_date_in_range (Some (PInt 2003, PInt 1)) (Some (PInt 2021, PInt 11))
       (PInt 2003, PInt 1) = Ok true
  /\ check_date_in_range (Some (PInt 2003, PInt 1)) (Some (PInt 2021, PInt 11))
       (PInt 2021, PInt 11) = Ok true
  /\ check_date_in_range (Some (PInt 2003, PInt 1)) (Some (PInt 2021, PInt 11))
       (PInt 2002, PInt 12) = Ok false
  /\ check_date_in_range (Some (PInt 2003, PInt 1)) (Some (PInt 2021, PInt 11))
       (PInt 2003, PInt 12) = Ok true
  /\ check_date_in_range (Some (PInt 2003, PInt 11)) (Some (PInt 2004, PInt 2))
       (PInt 2003, PInt 12) = Ok true.
Proof.
  split; [|repeat split; reflexivity].
  intros sy sm ey em y m Hs He Hd.
  rewrite (check_date_in_range_valid _ _ _ _ _ _ Hs He Hd).
  rewrite !date_le_calendar_position
    by (unfold valid_year_month in *; tauto).
  reflexivity.
Qed.

Lemma check_date_in_range_correct_witness :
  valid_year_month 2003 11 /\ valid_year_month 2004 2
  /\ valid_year_month 2004 1
  /\ check_date_in_range (Some (PInt 2003, PInt 11)) (Some (PInt 2004, PInt 2))
       (PInt 2004, PInt 1)
     = Ok ((calendar_position 2003 11 <=? calendar_position 2004 1)
           && (calendar_position 2004 1 <=? calendar_position 2004 2)).
Proof.
  assert (H1 : valid_year_month 2003 11)
    by (unfold valid_year_month, datetime.MINYEAR, datetime.MAXYEAR; lia).
  assert (H2 : valid_year_month 2004 2)
    by (unfold valid_year_month, datetime.MINYEAR, datetime.MAXYEAR; lia).
  assert (H3 : valid_year_month 2004 1)
    by (unfold valid_year_month, datetime.MINYEAR, datetime.MAXYEAR; lia).
  split; [exact H1|]. split; [exact H2|]. split; [exact H3|].
  exact (proj1 check_date_in_range_correct 2003 11 2004 2 2004 1 H1 H2 H3).
Defined.

(** C9. When the month of any of the three arguments is an integer
    outside 1 to 12, [check_date_in_range] raises instead of returning
    a boolean, and an exception it raises on tuples is the one a
    [datetime.date] construction raised: it validates nothing itself. *)
Theorem check_date_in_range_invalid_month :
  forall s e d : pytuple,
    (month_out_of_range s \/ month_out_of_range e \/ month_out_of_range d ->
     exists ex, check_date_in_range (Some s) (Some e) d = Raise ex)
    /\ (forall ex, check_date_in_range (Some s) (Some e) d = Raise ex ->
        datetime.date_new (fst s) (snd s) (PInt 1) = Raise ex
        \/ datetime.date_new (fst e) (snd e) (PInt 1) = Raise ex
        \/ datetime.date_new (fst d) (snd d) (PInt 1) = Raise ex).
Proof.
  intros [sy sm] [ey em] [y m]. split.
  - intros H.
    match goal with
    | |- exists _, ?c = _ => destruct c as [b|ex] eqn:E
    end; [|exists ex; reflexivity].
    exfalso. unfold check_date_in_range in E.
    cbn [subscript0 subscript1 bind fst snd] in E.
    destruct (datetime.date_new sy sm (PInt 1)) as [ds|] eqn:Es;
      cbn [bind] in E; [|discriminate].
    destruct (datetime.date_new ey em (PInt 1)) as [de|] eqn:Ee;
      cbn [bind] in E; [|discriminate].
    destruct (datetime.date_new y m (PInt 1)) as [dd|] eqn:Ed;
      cbn [bind] in E; [|discriminate].
    destruct H as [H|[H|H]]; destruct H as (k & Hk & Hr); cbn [snd] in Hk.
    + exact (date_new_month_out_of_range _ _ _ _ Hk Hr Es).
    + exact (date_new_month_out_of_range _ _ _ _ Hk Hr Ee).
    + exact (date_new_month_out_of_range _ _ _ _ Hk Hr Ed).
  - intros ex E. unfold check_date_in_range in E.
    cbn [subscript0 subscript1 bind fst snd] in E. cbn [fst snd].
    destruct (datetime.date_new sy sm (PInt 1)) as [ds|] eqn:Es;
      cbn [bind] in E; [|left; congruence].
    destruct (datetime.date_new ey em (PInt 1)) as [de|] eqn:Ee;
      cbn [bind] in E; [|right; left; congruence].
    destruct (datetime.date_new y m (PInt 1)) as [dd|] eqn:Ed;
      cbn [bind] in E; [discriminate|right; right; congruence].
Qed.

Lemma check_date_in_range_invalid_month_witness :
  month_out_of_range (PInt 2003, PInt 13)
  /\ exists ex,
       check_date_in_range (Some (PInt 2003, PInt 1))
         (Some (PInt 2021, PInt 11)) (PInt 2003, PInt 13) = Raise ex.
Proof.
  assert (H : month_out_of_range (PInt 2003, PInt 13)).
  { exists 13. split; [reflexivity|right; lia]. }
  split; [exact H|].
  exact (proj1 (check_date_in_range_invalid_month (PInt 2003, PInt 1)
                  (PInt 2021, PInt 11) (PInt 2003, PInt 13))
           (or_intror (or_intror H))).
Defined.


(** ** The pipeline as a sequence of calls *)

Section Pipeline.
Context {S : Type} {ops : CrimeDataOps S}.
Variables (cc cy cm cn : Z) (cocc : option Z) (a b : option pytuple).

Lemma run_calls_app (cs1 cs2 : list call) (s : S) :
  run_calls (cs1 ++ cs2) s = (s' <- run_calls cs1 s ;; run_calls cs2 s').
Proof.
  revert s. induction cs1 as [|c cs1 IH]; intros s; simpl; [reflexivity|].
  unfold run_calls in *. simpl.
  destruct (run_call c s); simpl; [apply IH|reflexivity].
Qed.

(** The loop of raw mode, from any store. *)
Lemma raw_loop_calls (rows : list row) (s0 s : S) :
  for_each rows (fun row post_processing_data =>
    y <- row_getitem row cy ;;
    m <- row_getitem row cm ;;
    in_range <- check_date_in_range a b (y, m) ;;
    if in_range : bool then
      c <- row_getitem row cc ;;
      n <- row_getitem row cn ;;
      y <- row_getitem row cy ;;
      m <- row_getitem row cm ;;
      increment_crime post_processing_data c n y m (PInt 1)
    else Ok post_processing_data) s0 = Ok s
  <-> exists sel incs,
        filterM (row_in_range a b cy cm) rows = Ok sel
        /\ mapM (row_increment cc cy cm cn (fun _ => Ok (PInt 1))) sel = Ok incs
        /\ run_calls incs s0 = Ok s.
Proof.
  revert s0. induction rows as [|r rows IH]; intros s0.
  - simpl. split.
    + intros H. exists [], []. auto.
    + intros (sel & incs & H1 & H2 & H3). inversion H1; subst.
      simpl in H2. inversion H2; subst. exact H3.
  - cbn [for_each filterM]. unfold row_in_range at 1.
    destruct (row_getitem r cy) as [y|e] eqn:Ey; cbn [bind].
    2:{ split; [discriminate|]. intros (sel & incs & H1 & _). discriminate. }
    destruct (row_getitem r cm) as [m|e] eqn:Em; cbn [bind].
    2:{ split; [discriminate|]. intros (sel & incs & H1 & _). discriminate. }
    destruct (check_date_in_range a b (y, m)) as [[|]|e] eqn:Ec; cbn [bind].
    3:{ split; [discriminate|]. intros (sel & incs & H1 & _). discriminate. }
    + (* the row is in the range *)
      destruct (row_getitem r cc) as [c|e] eqn:Ecc; cbn [bind].
      2:{ split; [discriminate|]. intros (sel & incs & H1 & H2 & _).
          destruct (filterM _ rows); cbn [bind] in H1; [|discriminate].
          inversion H1; subst. cbn [mapM] in H2. unfold row_increment at 1 in H2.
          rewrite Ecc in H2. discriminate. }
      destruct (row_getitem r cn) as [n|e] eqn:Ecn; cbn [bind].
      2:{ split; [discriminate|]. intros (sel & incs & H1 & H2 & _).
          destruct (filterM _ rows); cbn [bind] in H1; [|discriminate].
          inversion H1; subst. cbn [mapM] in H2. unfold row_increment at 1 in H2.
          rewrite Ecc, Ecn in H2. discriminate. }
      split.
      * intros H.
        destruct (increment_crime s0 c n y m (PInt 1)) as [s1|e] eqn:Ei;
          cbn [bind] in H; [|discriminate].
        apply IH in H as (sel & incs & H1 & H2 & H3).
        exists (r :: sel), (CallIncrementCrime c n y m (PInt 1) :: incs).
        rewrite H1. cbn [bind mapM]. unfold row_increment at 1.
        rewrite Ecc, Ecn, Ey, Em. cbn [bind]. rewrite H2. cbn [bind].
        repeat split. unfold run_calls in *. cbn [for_each run_call].
        rewrite Ei. cbn [bind]. exact H3.
      * intros (sel & incs & H1 & H2 & H3).
        destruct (filterM _ rows) as [sel'|] eqn:Ef; cbn [bind] in H1;
          [|discriminate].
        inversion H1; subst. cbn [mapM] in H2. unfold row_increment at 1 in H2.
        rewrite Ecc, Ecn, Ey, Em in H2. cbn [bind] in H2.
        destruct (mapM _ sel') as [incs'|] eqn:Emap; cbn [bind] in H2;
          [|discriminate].
        inversion H2; subst. unfold run_calls in H3. cbn [for_each run_call] in H3.
        destruct (increment_crime s0 c n y m (PInt 1)) as [s1|e] eqn:Ei;
          cbn [bind] in *; [|discriminate].
        apply IH. exists sel', incs'. auto.
    + (* the row is outside the range *)
      rewrite IH. split.
      * intros (sel & incs & H1 & H2 & H3). exists sel, incs.
        rewrite H1. cbn [bind]. auto.
      * intros (sel & incs & H1 & H2 & H3).
        destruct (filterM _ rows) as [sel'|] eqn:Ef; cbn [bind] in H1;
          [|discriminate].
        inversion H1; subst. exists sel, incs. auto.
Qed.

(** When every cell the loop reads is there, the loop of raw mode is
    the run of its calls, failures of the store included. *)
Lemma raw_loop_run (rows sel : list row) (incs : list call) (s0 : S) :
  filterM (row_in_range a b cy cm) rows = Ok sel ->
  mapM (row_increment cc cy cm cn (fun _ => Ok (PInt 1))) sel = Ok incs ->
  for_each rows (fun row post_processing_data =>
    y <- row_getitem row cy ;;
    m <- row_getitem row cm ;;
    in_range <- check_date_in_range a b (y, m) ;;
    if in_range : bool then
      c <- row_getitem row cc ;;
      n <- row_getitem row cn ;;
      y <- row_getitem row cy ;;
      m <- row_getitem row cm ;;
      increment_crime post_processing_data c n y m (PInt 1)
    else Ok post_processing_data) s0 = run_calls incs s0.
Proof.
  revert sel incs s0. induction rows as [|r rows IH]; intros sel incs s0 H1 H2.
  - inversion H1; subst. inversion H2; subst. reflexivity.
  - cbn [filterM] in H1. unfold row_in_range at 1 in H1. cbn [for_each].
    destruct (row_getitem r cy) as [y|e] eqn:Ey; cbn [bind] in *; [|discriminate].
    destruct (row_getitem r cm) as [m|e] eqn:Em; cbn [bind] in *; [|discriminate].
    destruct (check_date_in_range a b (y, m)) as [inr|e] eqn:Ec;
      cbn [bind] in *; [|discriminate].
    destruct (filterM _ rows) as [sel'|] eqn:Ef; cbn [bind] in H1; [|discriminate].
    inversion H1; subst. destruct inr.
    + cbn [mapM] in H2. unfold row_increment at 1 in H2.
      destruct (row_getitem r cc) as [c|e] eqn:Ecc; cbn [bind] in *; [|discriminate].
      destruct (row_getitem r cn) as [n|e] eqn:Ecn; cbn [bind] in *; [|discriminate].
      rewrite Ey, Em in H2. cbn [bind] in H2.
      destruct (mapM _ sel') as [incs'|] eqn:Emap; cbn [bind] in H2; [|discriminate].
      inversion H2; subst. unfold run_calls. cbn [for_each run_call].
      destruct (increment_crime s0 c n y m (PInt 1)) as [s1|e]; cbn [bind];
        [|reflexivity].
      apply (IH sel' incs' s1); [reflexivity|assumption].
    + cbn [bind]. apply (IH sel' incs s0); [reflexivity|assumption].
Qed.

(** The loop of processed mode, from any store. *)
Lemma processed_loop_run (rows : list row) (calls : list call) (s0 : S) :
  processed_calls cc cy cm cn cocc rows = Ok calls ->
  for_each rows (fun row post_processing_data =>
    c <- row_getitem row cc ;;
    n <- row_getitem row cn ;;
    y <- row_getitem row cy ;;
    m <- row_getitem row cm ;;
    o <- row_getitem_opt row cocc ;;
    increment_crime post_processing_data c n y m o) s0
  = run_calls calls s0.
Proof.
  unfold processed_calls.
  revert calls s0. induction rows as [|r rows IH]; intros calls s0 H.
  - inversion H; subst. reflexivity.
  - cbn [mapM] in H. unfold row_increment at 1 in H. cbn [for_each].
    destruct (row_getitem r cc) as [c|e]; cbn [bind] in *; [|discriminate].
    destruct (row_getitem r cn) as [n|e]; cbn [bind] in *; [|discriminate].
    destruct (row_getitem r cy) as [y|e]; cbn [bind] in *; [|discriminate].
    destruct (row_getitem r cm) as [m|e]; cbn [bind] in *; [|discriminate].
    destruct (row_getitem_opt r cocc) as [o|e]; cbn [bind] in *; [|discriminate].
    destruct (mapM _ rows) as [calls'|e] eqn:Emap; cbn [bind] in H; [|discriminate].
    inversion H; subst. unfold run_calls. cbn [for_each run_call].
    destruct (increment_crime s0 c n y m o) as [s1|e]; cbn [bind]; [|reflexivity].
    apply IH. reflexivity.
Qed.

Lemma processed_loop_raise (rows : list row) (e : exn) (s0 : S) :
  processed_calls cc cy cm cn cocc rows = Raise e ->
  is_ok (for_each rows (fun row post_processing_data =>
    c <- row_getitem row cc ;;
    n <- row_getitem row cn ;;
    y <- row_getitem row cy ;;
    m <- row_getitem row cm ;;
    o <- row_getitem_opt row cocc ;;
    increment_crime post_processing_data c n y m o) s0) = false.
Proof.
  unfold processed_calls.
  revert s0. induction rows as [|r rows IH]; intros s0 H; [discriminate|].
  cbn [mapM] in H. unfold row_increment at 1 in H. cbn [for_each].
  destruct (row_getitem r cc) as [c|e1]; cbn [bind] in *; [|reflexivity].
  destruct (row_getitem r cn) as [n|e1]; cbn [bind] in *; [|reflexivity].
  destruct (row_getitem r cy) as [y|e1]; cbn [bind] in *; [|reflexivity].
  destruct (row_getitem r cm) as [m|e1]; cbn [bind] in *; [|reflexivity].
  destruct (row_getitem_opt r cocc) as [o|e1]; cbn [bind] in *; [|reflexivity].
  destruct (increment_crime s0 c n y m o) as [s1|e1]; cbn [bind]; [|reflexivity].
  apply IH.
  destruct (mapM _ rows) as [calls'|e1]; cbn [bind] in H; congruence.
Qed.

Lemma mapM_length {X Y : Type} (f : X -> result Y) (xs : list X) (ys : list Y) :
  mapM f xs = Ok ys -> List.length ys = List.length xs.
Proof.
  revert ys. induction xs as [|x xs IH]; intros ys H; simpl in H.
  - inversion H. reflexivity.
  - destruct (f x); cbn [bind] in H; [|discriminate].
    destruct (mapM f xs); cbn [bind] in H; [|discriminate].
    inversion H. simpl. f_equal. apply IH. reflexivity.
Qed.

Lemma row_increment_calls (amount : row -> result pyval) (rows : list row)
    (calls : list call) :
  mapM (row_increment cc cy cm cn amount) rows = Ok calls ->
  Forall2 (fun r c =>
      exists crime nbhd y m v,
        row_getitem r cc = Ok crime /\ row_getitem r cn = Ok nbhd
        /\ row_getitem r cy = Ok y /\ row_getitem r cm = Ok m
        /\ amount r = Ok v
        /\ c = CallIncrementCrime crime nbhd y m v) rows calls.
Proof.
  revert calls. induction rows as [|r rows IH]; intros calls H; simpl in H.
  - inversion H. constructor.
  - unfold row_increment at 1 in H.
    destruct (row_getitem r cc) as [c|] eqn:E1; cbn [bind] in H; [|discriminate].
    destruct (row_getitem r cn) as [n|] eqn:E2; cbn [bind] in H; [|discriminate].
    destruct (row_getitem r cy) as [y|] eqn:E3; cbn [bind] in H; [|discriminate].
    destruct (row_getitem r cm) as [m|] eqn:E4; cbn [bind] in H; [|discriminate].
    destruct (amount r) as [v|] eqn:E5; cbn [bind] in H; [|discriminate].
    destruct (mapM _ rows) as [calls'|]; cbn [bind] in H; [|discriminate].
    inversion H; subst. constructor; [|apply IH; reflexivity].
    exists c, n, y, m, v. auto 10.
Qed.

Lemma filterM_spec {X : Type} (p : X -> result bool) (xs sel : list X) :
  filterM p xs = Ok sel ->
  exists bs, mapM p xs = Ok bs
    /\ sel = map fst (filter snd (combine xs bs)).
Proof.
  revert sel. induction xs as [|x xs IH]; intros sel H; simpl in H.
  - inversion H. exists []. auto.
  - destruct (p x) as [bx|] eqn:E; cbn [bind] in H; [|discriminate].
    destruct (filterM p xs) as [sel'|]; cbn [bind] in H; [|discriminate].
    destruct (IH sel' eq_refl) as (bs & Hbs & Hsel).
    exists (bx :: bs). simpl. rewrite E, Hbs. cbn [bind]. split; [reflexivity|].
    inversion H; subst. destruct bx; reflexivity.
Qed.

End Pipeline.

(** ** The store *)

Lemma dict_set_set {V : Type} (d : dict V) (k : pyval) (v v' : V) :
  dict_set (dict_set d k v) k v' = dict_set d k v'.
Proof.
  induction d as [|[k0 v0] rest IH]; simpl.
  - rewrite py_eqb_refl. reflexivity.
  - destruct (py_eqb k k0) eqn:E; simpl; rewrite E; [reflexivity|].
    rewrite IH. reflexivity.
Qed.

Lemma dict_values_set {V : Type} (Q : V -> bool) (d : dict V) (k : pyval) (v : V) :
  forallb (fun e => Q (snd e)) d = true -> Q v = true ->
  forallb (fun e => Q (snd e)) (dict_set d k v) = true.
Proof.
  intros Hd Hv. induction d as [|[k0 v0] rest IH]; simpl in *.
  - rewrite Hv. reflexivity.
  - apply andb_true_iff in Hd as [H1 H2].
    destruct (py_eqb k k0); simpl.
    + rewrite Hv, H2. reflexivity.
    + rewrite H1, IH by assumption. reflexivity.
Qed.

Lemma dict_values_get {V : Type} (Q : V -> bool) (d : dict V) (k : pyval) (v : V) :
  forallb (fun e => Q (snd e)) d = true -> dict_get d k = Some v -> Q v = true.
Proof.
  intros Hd Hg. apply dict_get_In in Hg as (k' & Hin & _).
  rewrite forallb_forall in Hd. exact (Hd _ Hin).
Qed.

(** *** Counts after an increment *)

Lemma occ_count_set (occ : dict (dict pyval)) (y m v y' m' : pyval) :
  occ_count
    (dict_set occ y
       (dict_set (match dict_get occ y with Some ms => ms | None => [] end) m v))
    y' m'
  = if py_eqb y' y && py_eqb m' m then Some v else occ_count occ y' m'.
Proof.
  unfold occ_count. rewrite dict_get_set.
  destruct (py_eqb y' y) eqn:Ey; cbn [andb]; [|reflexivity].
  rewrite dict_get_set, (dict_get_equiv occ y' y Ey).
  destruct (py_eqb m' m); [reflexivity|].
  destruct (dict_get occ y); reflexivity.
Qed.

Lemma lookup_series_put (cd : CrimeData) (c n y m v c' n' : pyval) :
  lookup_series (store_put cd c n y m v) c' n'
  = if py_eqb c' c && py_eqb n' n
    then Some {| occurrences :=
           let occ := match lookup_series cd c n with
                      | Some s => occurrences s | None => [] end in
           dict_set occ y
             (dict_set (match dict_get occ y with Some ms => ms | None => [] end)
                m v) |}
    else lookup_series cd c' n'.
Proof.
  unfold lookup_series, store_put. cbn [crime_occurrences].
  rewrite dict_get_set.
  destruct (py_eqb c' c) eqn:Ec; cbn [andb]; [|reflexivity].
  rewrite dict_get_set, (dict_get_equiv _ c' c Ec).
  destruct (py_eqb n' n); [|destruct (dict_get (crime_occurrences cd) c); reflexivity].
  destruct (dict_get (crime_occurrences cd) c); reflexivity.
Qed.

Lemma lookup_count_put (cd : CrimeData) (c n y m v c' n' y' m' : pyval) :
  lookup_count (store_put cd c n y m v) c' n' y' m'
  = if py_eqb c' c && py_eqb n' n && py_eqb y' y && py_eqb m' m then Some v
    else lookup_count cd c' n' y' m'.
Proof.
  unfold lookup_count. rewrite lookup_series_put.
  destruct (py_eqb c' c && py_eqb n' n) eqn:E; cbn [andb]; [|reflexivity].
  unfold series_count. cbn [occurrences]. cbv zeta. rewrite occ_count_set.
  destruct (py_eqb y' y && py_eqb m' m) eqn:E2.
  - reflexivity.
  - apply andb_true_iff in E as [Ec En].
    unfold lookup_series.
    rewrite (dict_get_equiv _ c' c Ec).
    destruct (dict_get (crime_occurrences cd) c) as [ns|]; [|reflexivity].
    rewrite (dict_get_equiv _ n' n En).
    destruct (dict_get ns n); reflexivity.
Qed.

Lemma store_put_put (cd : CrimeData) (c n y m v v' : pyval) :
  store_put (store_put cd c n y m v) c n y m v' = store_put cd c n y m v'.
Proof.
  unfold store_put. cbn [crime_occurrences].
  rewrite !dict_get_set_same. cbn [occurrences].
  rewrite !dict_get_set_same, !dict_set_set. reflexivity.
Qed.

(** [increment_crime] puts the sum of the old count and the amount. *)
Lemma increment_crime_put (cd : CrimeData) (c n y m amount : pyval) :
  CrimeDataImpl.increment_crime cd c n y m amount
  = (v <- py_add (count_or_zero cd c n y m) amount ;;
     Ok (store_put cd c n y m v)).
Proof.
  unfold CrimeDataImpl.increment_crime, increment_data, count_or_zero,
    lookup_count, lookup_series, series_count, occ_count, store_put.
  destruct (dict_get (crime_occurrences cd) c) as [ns|]; cbn [dict_get occurrences].
  - destruct (dict_get ns n) as [nco|]; cbn [dict_get occurrences].
    + destruct (dict_get (occurrences nco) y) as [ms|]; cbn [dict_get].
      * destruct (dict_get ms m); destruct (py_add _ amount); reflexivity.
      * destruct (py_add _ amount); reflexivity.
    + destruct (py_add _ amount); reflexivity.
  - destruct (py_add _ amount); reflexivity.
Qed.

(** *** Well-formedness is kept *)

Lemma series_wf_set (occ : dict (dict pyval)) (y m v : pyval) :
  series_wf {| occurrences := occ |} = true ->
  series_wf
    {| occurrences :=
         dict_set occ y
           (dict_set (match dict_get occ y with Some ms => ms | None => [] end)
              m v) |} = true.
Proof.
  unfold series_wf. cbn [occurrences]. intros H.
  apply andb_true_iff in H as [H1 H2]. apply andb_true_iff. split.
  - apply dict_wf_set, H1.
  - apply (dict_values_set dict_wf); [exact H2|].
    apply dict_wf_set.
    destruct (dict_get occ y) as [ms|] eqn:E; [|reflexivity].
    exact (dict_values_get dict_wf occ y ms H2 E).
Qed.

Lemma store_wf_neighbourhoods (cd : CrimeData) (c : pyval)
    (ns : dict NeighbourhoodCrimeOccurrences) :
  store_wf cd = true -> dict_get (crime_occurrences cd) c = Some ns ->
  neighbourhoods_wf ns = true.
Proof.
  unfold store_wf. intros H E. apply andb_true_iff in H as [_ H].
  exact (dict_values_get neighbourhoods_wf _ _ _ H E).
Qed.

Lemma store_wf_series (cd : CrimeData) (c n : pyval)
    (nco : NeighbourhoodCrimeOccurrences) :
  store_wf cd = true -> lookup_series cd c n = Some nco -> series_wf nco = true.
Proof.
  unfold lookup_series. intros H Hl.
  destruct (dict_get (crime_occurrences cd) c) as [ns|] eqn:E; [|discriminate].
  pose proof (store_wf_neighbourhoods cd c ns H E) as Hns.
  apply andb_true_iff in Hns as [_ Hns].
  exact (dict_values_get series_wf ns n nco Hns Hl).
Qed.

Lemma store_wf_put (cd : CrimeData) (c n y m v : pyval) :
  store_wf cd = true -> store_wf (store_put cd c n y m v) = true.
Proof.
  intros H. pose proof H as H0. unfold store_wf in H.
  apply andb_true_iff in H as [H1 H2].
  unfold store_wf, store_put. cbn [crime_occurrences].
  apply andb_true_iff. split; [apply dict_wf_set, H1|].
  apply (dict_values_set neighbourhoods_wf); [exact H2|].
  assert (Hns : neighbourhoods_wf
            (match dict_get (crime_occurrences cd) c with
             | Some ns => ns | None => [] end) = true).
  { destruct (dict_get (crime_occurrences cd) c) as [ns|] eqn:E; [|reflexivity].
    exact (store_wf_neighbourhoods cd c ns H0 E). }
  unfold neighbourhoods_wf in *. apply andb_true_iff in Hns as [Hn1 Hn2].
  apply andb_true_iff. split; [apply dict_wf_set, Hn1|].
  apply (dict_values_set series_wf); [exact Hn2|].
  apply series_wf_set.
  destruct (dict_get _ n) as [nco|] eqn:En; [|reflexivity].
  destruct nco as [occ]. exact (dict_values_get series_wf _ _ _ Hn2 En).
Qed.

(** *** One leaf a key path *)

Lemma filter_flat_map {X Y : Type} (p : Y -> bool) (f : X -> list Y) (l : list X) :
  filter p (flat_map f l) = flat_map (fun x => filter p (f x)) l.
Proof.
  induction l as [|x l IH]; simpl; [reflexivity|].
  rewrite filter_app, IH. reflexivity.
Qed.

Lemma filter_map_flat_map {X Y : Type} (p : Y -> bool) (f : X -> Y) (l : list X) :
  filter p (map f l) = flat_map (fun x => if p (f x) then [f x] else []) l.
Proof.
  induction l as [|x l IH]; simpl; [reflexivity|].
  rewrite IH. destruct (p (f x)); reflexivity.
Qed.


Lemma filter_flat_map_nil {X Y : Type} (p : Y -> bool) (G : X -> list Y)
    (l : list X) :
  (forall x, In x l -> filter p (G x) = []) -> filter p (flat_map G l) = [].
Proof.
  intros H. rewrite filter_flat_map.
  induction l as [|x l IH]; simpl; [reflexivity|].
  rewrite (H x) by (left; reflexivity). apply IH.
  intros x' Hx'. apply H. right. exact Hx'.
Qed.

Lemma filter_map_nil {X Y : Type} (p : Y -> bool) (f : X -> Y) (l : list X) :
  (forall x, p (f x) = false) -> filter p (map f l) = [].
Proof.
  intros H. induction l as [|x l IH]; simpl; [reflexivity|].
  rewrite H. exact IH.
Qed.

(** In a well-formed dict, of the records gathered entry by entry,
    those a test keeps all come from the one entry of the key, when
    the test rejects the records of every other key. *)
Lemma dict_filter_single {V : Type} (p : record -> bool)
    (G : pyval * V -> list record) (d : dict V) (k : pyval) (v : V) :
  dict_wf d = true -> dict_get d k = Some v ->
  (forall k' v', py_eqb k k' = false -> filter p (G (k', v')) = []) ->
  exists k', py_eqb k k' = true
             /\ filter p (flat_map G d) = filter p (G (k', v)).
Proof.
  intros Hwf Hget Hne. induction d as [|[k0 v0] rest IH]; [discriminate|].
  cbn [dict_get dict_wf] in Hget, Hwf. apply andb_true_iff in Hwf as [W1 W2].
  cbn [flat_map]. rewrite filter_app.
  destruct (py_eqb k k0) eqn:E.
  - inversion Hget; subst. exists k0. split; [exact E|].
    rewrite (filter_flat_map_nil p G rest); [apply app_nil_r|].
    intros [k1 v1] Hin. apply Hne.
    apply negb_true_iff in W1. unfold dict_contains in W1.
    destruct (dict_get rest k0) eqn:E0; [discriminate|].
    pose proof (dict_get_None_In rest k0 k1 v1 E0 Hin) as E1.
    key_cases; congruence.
  - destruct (IH W2 Hget) as (k' & Hk' & Hf). exists k'. split; [exact Hk'|].
    rewrite (Hne k0 v0 E), Hf. reflexivity.
Qed.

Lemma leaves_single (cd : CrimeData) (c n y m v : pyval) :
  store_wf cd = true -> lookup_count cd c n y m = Some v ->
  exists c' n' y' m',
    filter (key_matches c n y m) (leaves cd) = [(c', n', y', m', v)].
Proof.
  intros Hwf Hl. pose proof Hwf as Hwf0.
  unfold store_wf in Hwf. apply andb_true_iff in Hwf as [W1 _].
  unfold lookup_count, lookup_series, series_count, occ_count in Hl.
  destruct (dict_get (crime_occurrences cd) c) as [ns|] eqn:G1'; [|discriminate].
  destruct (dict_get ns n) as [nco|] eqn:G2'; [|discriminate].
  destruct (dict_get (occurrences nco) y) as [ms|] eqn:G3'; [|discriminate].
  pose proof (store_wf_neighbourhoods cd c ns Hwf0 G1') as Wn.
  unfold neighbourhoods_wf in Wn. apply andb_true_iff in Wn as [Wn1 Wn2].
  pose proof (dict_values_get series_wf _ _ _ Wn2 G2') as Ws.
  unfold series_wf in Ws. apply andb_true_iff in Ws as [Ws1 Ws2].
  pose proof (dict_values_get dict_wf _ _ _ Ws2 G3') as Wm.
  pose (G1 := fun e1 : pyval * dict NeighbourhoodCrimeOccurrences =>
    flat_map (fun e2 => flat_map (fun e3 =>
      map (fun e4 => (fst e1, fst e2, fst e3, fst e4, snd e4)) (snd e3))
      (occurrences (snd e2))) (snd e1)).
  destruct (dict_filter_single (key_matches c n y m) G1
              (crime_occurrences cd) c ns W1 G1') as (c' & Ec & Hf1).
  { intros k' v' E. apply filter_flat_map_nil. intros e2 _.
    apply filter_flat_map_nil. intros e3 _. apply filter_map_nil. intros e4.
    cbn [fst snd key_matches]. rewrite E. reflexivity. }
  pose (G2 := fun e2 : pyval * NeighbourhoodCrimeOccurrences =>
    flat_map (fun e3 =>
      map (fun e4 => (c', fst e2, fst e3, fst e4, snd e4)) (snd e3))
      (occurrences (snd e2))).
  destruct (dict_filter_single (key_matches c n y m) G2 ns n nco Wn1 G2')
    as (n' & En & Hf2).
  { intros k' v' E. apply filter_flat_map_nil. intros e3 _.
    apply filter_map_nil. intros e4.
    cbn [fst snd key_matches]. rewrite E, andb_false_r. reflexivity. }
  pose (G3 := fun e3 : pyval * dict pyval =>
    map (fun e4 => (c', n', fst e3, fst e4, snd e4)) (snd e3)).
  destruct (dict_filter_single (key_matches c n y m) G3
              (occurrences nco) y ms Ws1 G3') as (y' & Ey & Hf3).
  { intros k' v' E. apply filter_map_nil. intros e4.
    cbn [fst snd key_matches]. rewrite E, andb_false_r. reflexivity. }
  pose (G4 := fun e4 : pyval * pyval => [(c', n', y', fst e4, snd e4)]).
  destruct (dict_filter_single (key_matches c n y m) G4 ms m v Wm Hl)
    as (m' & Em & Hf4).
  { intros k' v' E. unfold G4. cbn [fst snd filter key_matches].
    rewrite E, andb_false_r. reflexivity. }
  assert (Hmap : G3 (y', ms) = flat_map G4 ms).
  { unfold G3, G4. cbn [fst snd]. clear.
    induction ms as [|e ms IH]; simpl; [reflexivity|]. rewrite IH.
    reflexivity. }
  exists c', n', y', m'.
  transitivity (filter (key_matches c n y m) (G1 (c', ns))); [exact Hf1|].
  transitivity (filter (key_matches c n y m) (G2 (n', nco))); [exact Hf2|].
  transitivity (filter (key_matches c n y m) (flat_map G4 ms));
    [rewrite <- Hmap; exact Hf3|].
  transitivity (filter (key_matches c n y m) (G4 (m', v))); [exact Hf4|].
  unfold G4. cbn [fst snd filter key_matches].
  rewrite Ec, En, Ey, Em. reflexivity.
Qed.

(** *** Increments at one key path *)

Lemma sum_amounts_perm (l l' : list Z) :
  Permutation l l' -> sum_amounts l = sum_amounts l'.
Proof.
  unfold sum_amounts. induction 1; simpl; lia.
Qed.

Lemma count_or_zero_put (cd : CrimeData) (c n y m v : pyval) :
  count_or_zero (store_put cd c n y m v) c n y m = v.
Proof.
  unfold count_or_zero. rewrite lookup_count_put, !py_eqb_refl. reflexivity.
Qed.

Lemma increment_all_put (amounts : list Z) :
  forall (cd : CrimeData) (c n y m : pyval) (c0 : Z),
    count_or_zero cd c n y m = PInt c0 -> amounts <> [] ->
    increment_all cd c n y m amounts
    = Ok (store_put cd c n y m (PInt (c0 + sum_amounts amounts))).
Proof.
  induction amounts as [|a rest IH]; intros cd c n y m c0 H0 Hne; [congruence|].
  unfold increment_all. cbn [for_each].
  rewrite increment_crime_put, H0. cbn [py_add as_number bind].
  destruct rest as [|a' rest'].
  - cbn [for_each sum_amounts fold_right]. do 3 f_equal. lia.
  - fold (increment_all (store_put cd c n y m (PInt (c0 + a))) c n y m (a' :: rest')).
    rewrite (IH _ c n y m (c0 + a)) by (try apply count_or_zero_put; congruence).
    rewrite store_put_put. do 3 f_equal.
    unfold sum_amounts. cbn [fold_right]. lia.
Qed.

(** C6. Increments at one key path, from a store that has no count
    there, leave as the count the sum of the amounts, whatever the
    order of the calls: any reordering ends in the same store; no level
    of the store gets two equal keys, and the store has one leaf at
    the key path, which holds the sum. *)
Theorem increment_accumulates :
  forall (cd : CrimeData) (crime nbhd y m : pyval) (amounts amounts' : list Z),
    store_wf cd = true ->
    lookup_count cd crime nbhd y m = None ->
    amounts <> [] ->
    Permutation amounts amounts' ->
    exists cd',
      increment_all cd crime nbhd y m amounts = Ok cd'
      /\ lookup_count cd' crime nbhd y m = Some (PInt (sum_amounts amounts))
      /\ increment_all cd crime nbhd y m amounts' = Ok cd'
      /\ store_wf cd' = true
      /\ exists crime' nbhd' y' m',
           filter (key_matches crime nbhd y m) (leaves cd')
           = [(crime', nbhd', y', m', PInt (sum_amounts amounts))].
Proof.
  intros cd c n y m amounts amounts' Hwf Hnone Hne Hperm.
  assert (H0 : count_or_zero cd c n y m = PInt 0)
    by (unfold count_or_zero; rewrite Hnone; reflexivity).
  exists (store_put cd c n y m (PInt (sum_amounts amounts))).
  split; [|split; [|split; [|split]]];
    [| | | |apply leaves_single;
            [apply store_wf_put, Hwf
            |rewrite lookup_count_put, !py_eqb_refl; reflexivity]].
  - rewrite (increment_all_put amounts cd c n y m 0 H0 Hne). reflexivity.
  - rewrite lookup_count_put, !py_eqb_refl. reflexivity.
  - assert (Hne' : amounts' <> []).
    { intros ->. apply Permutation_sym, Permutation_nil in Hperm. congruence. }
    rewrite (increment_all_put amounts' cd c n y m 0 H0 Hne').
    rewrite (sum_amounts_perm _ _ Hperm). reflexivity.
  - apply store_wf_put, Hwf.
Qed.

Lemma increment_accumulates_witness :
  exists cd',
    increment_all CrimeDataImpl.new (PStr "Theft") (PStr "X") (PInt 2003) (PInt 1)
      [2; 0; 5] = Ok cd'
    /\ lookup_count cd' (PStr "Theft") (PStr "X") (PInt 2003) (PInt 1)
       = Some (PInt (sum_amounts [2; 0; 5]))
    /\ increment_all CrimeDataImpl.new (PStr "Theft") (PStr "X") (PInt 2003)
         (PInt 1) [5; 2; 0] = Ok cd'
    /\ store_wf cd' = true
    /\ exists crime' nbhd' y' m',
         filter (key_matches (PStr "Theft") (PStr "X") (PInt 2003) (PInt 1))
           (leaves cd')
         = [(crime', nbhd', y', m', PInt (sum_amounts [2; 0; 5]))].
Proof.
  apply (increment_accumulates CrimeDataImpl.new (PStr "Theft") (PStr "X")
           (PInt 2003) (PInt 1) [2; 0; 5] [5; 2; 0]).
  - reflexivity.
  - reflexivity.
  - discriminate.
  - apply perm_trans with (l' := [2; 5; 0]).
    + apply perm_skip. apply perm_swap.
    + apply perm_trans with (l' := [5; 2; 0]); [apply perm_swap|apply Permutation_refl].
Defined.

(** ** Gap filling *)

Lemma py_range_In (lo hi x : Z) : In x (py_range lo hi) <-> lo <= x < hi.
Proof.
  unfold py_range. rewrite in_map_iff. split.
  - intros (i & <- & Hi). apply in_seq in Hi. lia.
  - intros H. exists (Z.to_nat (x - lo)). split; [lia|]. apply in_seq. lia.
Qed.

Lemma months_in_range_In (s e : Z * Z) (y m : Z) :
  In (y, m) (months_in_range s e)
  <-> fst s <= y <= fst e
      /\ (if y =? fst s then snd s else 1) <= m
         <= (if y =? fst e then snd e else 12).
Proof.
  unfold months_in_range. rewrite in_flat_map. split.
  - intros (y0 & Hy & Hm). apply in_map_iff in Hm as (m0 & Heq & Hm).
    inversion Heq; subst. apply py_range_In in Hy, Hm. lia.
  - intros [Hy Hm]. exists y. split; [apply py_range_In; lia|].
    apply in_map_iff. exists m. split; [reflexivity|]. apply py_range_In. lia.
Qed.

(** The months of 1 to 12 of the inclusive range are all listed, the
    year changing after December. *)
Lemma months_in_range_complete (s e : Z * Z) (y m : Z) :
  in_inclusive_range s e (y, m) -> In (y, m) (months_in_range s e).
Proof.
  unfold in_inclusive_range, ym_le. cbn [fst snd]. intros (Hm & Hs & He).
  apply months_in_range_In.
  destruct (Z.eqb_spec y (fst s)), (Z.eqb_spec y (fst e)); lia.
Qed.

(** Between calendar bounds nothing else is listed. *)
Lemma months_in_range_sound (s e : Z * Z) (y m : Z) :
  1 <= snd s <= 12 -> 1 <= snd e <= 12 ->
  In (y, m) (months_in_range s e) -> in_inclusive_range s e (y, m).
Proof.
  unfold in_inclusive_range, ym_le. cbn [fst snd]. intros Hs He H.
  apply months_in_range_In in H.
  destruct (Z.eqb_spec y (fst s)), (Z.eqb_spec y (fst e)); lia.
Qed.

Lemma in_months_In (months : list (Z * Z)) (y m : Z) :
  in_months months (PInt y) (PInt m) = true <-> In (y, m) months.
Proof.
  unfold in_months. rewrite existsb_exists. split.
  - intros ([y0 m0] & Hin & H). cbn [fst snd] in H.
    rewrite !py_eqb_PInt in H. apply andb_true_iff in H as [Hy Hm].
    apply Z.eqb_eq in Hy, Hm. subst. exact Hin.
  - intros H. exists (y, m). split; [exact H|]. cbn [fst snd].
    rewrite !py_eqb_refl. reflexivity.
Qed.

(** *** The range in calendar order *)

Lemma py_range_empty (lo hi : Z) : hi <= lo -> py_range lo hi = [].
Proof.
  intros H. unfold py_range. replace (Z.to_nat (hi - lo)) with 0%nat by lia.
  reflexivity.
Qed.

Lemma py_range_cons (lo hi : Z) :
  lo < hi -> py_range lo hi = lo :: py_range (lo + 1) hi.
Proof.
  intros H. unfold py_range.
  replace (Z.to_nat (hi - lo)) with (Datatypes.S (Z.to_nat (hi - (lo + 1))))
    by lia.
  cbn [seq map]. f_equal; [lia|].
  rewrite <- seq_shift, map_map. apply map_ext. intros i. lia.
Qed.

Lemma py_range_app (lo mid hi : Z) :
  lo <= mid <= hi -> py_range lo hi = py_range lo mid ++ py_range mid hi.
Proof.
  intros H. remember (Z.to_nat (mid - lo)) as n eqn:Hn.
  revert lo H Hn. induction n as [|n IH]; intros lo H Hn.
  - replace mid with lo by lia. rewrite (py_range_empty lo lo) by lia.
    reflexivity.
  - rewrite (py_range_cons lo hi), (py_range_cons lo mid) by lia.
    cbn [app]. f_equal. apply IH; lia.
Qed.

Lemma py_range_map_add (c lo hi : Z) :
  map (fun x => c + x) (py_range lo hi) = py_range (c + lo) (c + hi).
Proof.
  unfold py_range. rewrite map_map.
  replace (c + hi - (c + lo)) with (hi - lo) by lia.
  apply map_ext. intros i. lia.
Qed.

Lemma months_in_range_later_years (sy sm ey em : Z) (ys : list Z) :
  (forall y, In y ys -> sy < y) ->
  flat_map (fun y =>
      map (fun m => (y, m))
        (py_range (if y =? sy then sm else 1)
                  ((if y =? ey then em else 12) + 1))) ys
  = flat_map (fun y =>
      map (fun m => (y, m))
        (py_range (if y =? sy + 1 then 1 else 1)
                  ((if y =? ey then em else 12) + 1))) ys.
Proof.
  induction ys as [|y ys IH]; intros H; [reflexivity|].
  cbn [flat_map]. rewrite IH by (intros y' Hy'; apply H; right; exact Hy').
  f_equal.
  destruct (Z.eqb_spec y sy) as [->|_];
    [specialize (H sy (or_introl eq_refl)); lia|].
  destruct (y =? sy + 1); reflexivity.
Qed.

Lemma month_index_of_year (y lo hi : Z) :
  map (fun ym => month_index (fst ym) (snd ym))
    (map (fun m => (y, m)) (py_range lo hi))
  = py_range (month_index y lo) (month_index y hi).
Proof.
  rewrite map_map. cbn [fst snd]. unfold month_index.
  replace (y * 12 + (lo - 1)) with (y * 12 - 1 + lo) by lia.
  replace (y * 12 + (hi - 1)) with (y * 12 - 1 + hi) by lia.
  rewrite <- py_range_map_add. apply map_ext. intros m. lia.
Qed.

(** Between calendar bounds, the months of the range are the months
    numbered from the start to the end, each once and in order: after
    December of a year comes January of the next. *)
Lemma months_in_range_calendar_order (sy sm ey em : Z) :
  1 <= sm <= 12 -> 1 <= em <= 12 ->
  map (fun ym => month_index (fst ym) (snd ym)) (months_in_range (sy, sm) (ey, em))
  = py_range (month_index sy sm) (month_index ey em + 1).
Proof.
  intros Hs He. remember (Z.to_nat (ey - sy)) as n eqn:Hn.
  revert sy sm Hs Hn. induction n as [|n IH]; intros sy sm Hs Hn.
  - (* the range ends in its first year, or before *)
    unfold months_in_range. cbn [fst snd].
    destruct (Z.eq_dec sy ey) as [->|Hne].
    + rewrite (py_range_cons ey (ey + 1)), (py_range_empty (ey + 1)) by lia.
      cbn [flat_map]. rewrite app_nil_r, Z.eqb_refl, month_index_of_year.
      f_equal. unfold month_index. lia.
    + rewrite (py_range_empty sy) by lia.
      rewrite py_range_empty by (unfold month_index; lia). reflexivity.
  - (* the first year, then the range from January of the next *)
    assert (Hlt : sy < ey) by lia.
    unfold months_in_range. cbn [fst snd].
    rewrite (py_range_cons sy (ey + 1)) by lia. cbn [flat_map].
    rewrite Z.eqb_refl.
    destruct (Z.eqb_spec sy ey) as [Heq|_]; [lia|].
    rewrite (months_in_range_later_years sy sm ey em)
      by (intros y Hy; apply py_range_In in Hy; lia).
    rewrite map_app, month_index_of_year.
    specialize (IH (sy + 1) 1 ltac:(lia) ltac:(lia)).
    unfold months_in_range in IH. cbn [fst snd] in IH. rewrite IH.
    rewrite (py_range_app (month_index sy sm) (month_index sy (12 + 1))
               (month_index ey em + 1))
      by (unfold month_index; lia).
    f_equal. f_equal. unfold month_index. lia.
Qed.

Lemma next_month_index (y m : Z) :
  1 <= m <= 12 ->
  month_index (fst (next_month (y, m))) (snd (next_month (y, m)))
  = month_index y m + 1
  /\ 1 <= snd (next_month (y, m)) <= 12.
Proof.
  intros Hm. unfold next_month, month_index. cbn [fst snd].
  destruct (Z.eqb_spec m 12); cbn [fst snd]; lia.
Qed.

(** The range predicate of the pipeline and the range of the gap fill
    agree on calendar dates. *)
Lemma check_date_in_range_months (sy sm ey em y m : Z) :
  valid_year_month sy sm -> valid_year_month ey em -> valid_year_month y m ->
  check_date_in_range (Some (PInt sy, PInt sm)) (Some (PInt ey, PInt em))
    (PInt y, PInt m) = Ok true
  <-> In (y, m) (months_in_range (sy, sm) (ey, em)).
Proof.
  intros Hs He Hd. rewrite (check_date_in_range_valid _ _ _ _ _ _ Hs He Hd).
  unfold valid_year_month in *.
  rewrite !date_le_month_index by tauto.
  rewrite months_in_range_In. cbn [fst snd]. unfold month_index. split.
  - intros H. inversion H as [H1]. apply andb_true_iff in H1 as [H2 H3].
    apply Z.leb_le in H2, H3.
    destruct (Z.eqb_spec y sy), (Z.eqb_spec y ey); lia.
  - intros H. f_equal. apply andb_true_iff.
    split; apply Z.leb_le;
      destruct (Z.eqb_spec y sy), (Z.eqb_spec y ey); lia.
Qed.

(** *** One series *)

Lemma occ_count_fill_month (occ : dict (dict pyval)) (ym : Z * Z) (y m : pyval) :
  occ_count (fill_month occ ym) y m
  = match occ_count occ y m with
    | Some v => Some v
    | None =>
        if py_eqb y (PInt (fst ym)) && py_eqb m (PInt (snd ym))
        then Some (PInt 0) else None
    end.
Proof.
  unfold fill_month, occ_count. rewrite dict_get_set.
  destruct (py_eqb y (PInt (fst ym))) eqn:Ey; cbn [andb].
  - rewrite dict_get_setdefault, (dict_get_equiv occ _ _ Ey).
    destruct (dict_get occ (PInt (fst ym))) as [ms|]; [reflexivity|].
    reflexivity.
  - destruct (dict_get occ y) as [ms|]; [|reflexivity].
    destruct (dict_get ms m); reflexivity.
Qed.

Lemma occ_count_fill (months : list (Z * Z)) :
  forall (occ : dict (dict pyval)) (y m : pyval),
    occ_count (fold_left fill_month months occ) y m
    = match occ_count occ y m with
      | Some v => Some v
      | None => if in_months months y m then Some (PInt 0) else None
      end.
Proof.
  induction months as [|ym months IH]; intros occ y m; cbn [fold_left].
  - unfold in_months. simpl. destruct (occ_count occ y m); reflexivity.
  - rewrite IH, occ_count_fill_month.
    destruct (occ_count occ y m); [reflexivity|].
    unfold in_months. cbn [existsb].
    destruct (py_eqb y (PInt (fst ym)) && py_eqb m (PInt (snd ym)));
      reflexivity.
Qed.

Lemma fill_month_unchanged (occ : dict (dict pyval)) (ym : Z * Z) (v : pyval) :
  occ_count occ (PInt (fst ym)) (PInt (snd ym)) = Some v ->
  fill_month occ ym = occ.
Proof.
  unfold occ_count, fill_month. intros H.
  destruct (dict_get occ (PInt (fst ym))) as [ms|] eqn:E; [|discriminate].
  rewrite dict_setdefault_unchanged
    by (unfold dict_contains; rewrite H; reflexivity).
  apply dict_set_unchanged, E.
Qed.

Lemma fill_unchanged (months : list (Z * Z)) (occ : dict (dict pyval)) :
  (forall ym, In ym months ->
     occ_count occ (PInt (fst ym)) (PInt (snd ym)) <> None) ->
  fold_left fill_month months occ = occ.
Proof.
  induction months as [|ym months IH]; intros H; cbn [fold_left]; [reflexivity|].
  destruct (occ_count occ (PInt (fst ym)) (PInt (snd ym))) as [v|] eqn:E.
  - rewrite (fill_month_unchanged occ ym v E). apply IH.
    intros ym' Hin. apply H. right. exact Hin.
  - exfalso. apply (H ym); [left; reflexivity|exact E].
Qed.

Lemma fill_series_idempotent (months : list (Z * Z))
    (nco : NeighbourhoodCrimeOccurrences) :
  fill_series months (fill_series months nco) = fill_series months nco.
Proof.
  unfold fill_series. cbn [occurrences]. f_equal.
  apply fill_unchanged. intros [y m] Hin. cbn [fst snd].
  rewrite occ_count_fill.
  destruct (occ_count (occurrences nco) (PInt y) (PInt m)); [discriminate|].
  rewrite (proj2 (in_months_In months y m) Hin). discriminate.
Qed.

(** *** The store *)

Lemma dict_map_values_idempotent {V : Type} (f : V -> V) (d : dict V) :
  (forall v, f (f v) = f v) ->
  dict_map_values f (dict_map_values f d) = dict_map_values f d.
Proof.
  intros Hf. unfold dict_map_values. rewrite map_map. apply map_ext.
  intros [k v]. cbn [fst snd]. rewrite Hf. reflexivity.
Qed.

Lemma fill_gaps_int (cd : CrimeData) (sy sm ey em : Z) :
  CrimeDataImpl.fill_gaps cd (Some (PInt sy, PInt sm)) (Some (PInt ey, PInt em))
  = Ok {| crime_occurrences :=
            dict_map_values
              (dict_map_values (fill_series (months_in_range (sy, sm) (ey, em))))
              (crime_occurrences cd) |}.
Proof. reflexivity. Qed.

Lemma lookup_series_fill (months : list (Z * Z)) (cd : CrimeData) (c n : pyval) :
  lookup_series
    {| crime_occurrences :=
         dict_map_values (dict_map_values (fill_series months))
           (crime_occurrences cd) |} c n
  = option_map (fill_series months) (lookup_series cd c n).
Proof.
  unfold lookup_series. cbn [crime_occurrences].
  rewrite dict_get_map_values.
  destruct (dict_get (crime_occurrences cd) c) as [ns|]; cbn [option_map];
    [|reflexivity].
  apply dict_get_map_values.
Qed.

Lemma lookup_count_fill (months : list (Z * Z)) (cd : CrimeData)
    (c n y m : pyval) :
  lookup_count
    {| crime_occurrences :=
         dict_map_values (dict_map_values (fill_series months))
           (crime_occurrences cd) |} c n y m
  = match lookup_series cd c n with
    | None => None
    | Some nco =>
        match series_count nco y m with
        | Some v => Some v
        | None => if in_months months y m then Some (PInt 0) else None
        end
    end.
Proof.
  unfold lookup_count. rewrite lookup_series_fill.
  destruct (lookup_series cd c n) as [nco|]; cbn [option_map]; [|reflexivity].
  unfold series_count, fill_series. cbn [occurrences]. apply occ_count_fill.
Qed.

(** C1. After [fill_gaps] over an inclusive range, every series
    (crime, neighbourhood) the store had holds an entry at every
    month of 1 to 12 of the range, the year changing after December:
    the count it had, or 0 where it had none; every count the store
    held is still there unchanged; and a (crime, neighbourhood) pair
    the store did not have is still absent. *)
Theorem fill_gaps_postcondition :
  forall (cd : CrimeData) (sy sm ey em : Z),
  exists cd',
    CrimeDataImpl.fill_gaps cd (Some (PInt sy, PInt sm)) (Some (PInt ey, PInt em))
    = Ok cd'
    /\ (forall crime nbhd y m,
          lookup_series cd crime nbhd <> None ->
          in_inclusive_range (sy, sm) (ey, em) (y, m) ->
          lookup_count cd' crime nbhd (PInt y) (PInt m)
          = Some (count_or_zero cd crime nbhd (PInt y) (PInt m)))
    /\ (forall crime nbhd y m v,
          lookup_count cd crime nbhd y m = Some v ->
          lookup_count cd' crime nbhd y m = Some v)
    /\ (forall crime nbhd,
          lookup_series cd crime nbhd = None ->
          lookup_series cd' crime nbhd = None).
Proof.
  intros cd sy sm ey em. eexists. split; [apply fill_gaps_int|].
  split; [|split].
  - intros crime nbhd y m Hs Hr.
    rewrite lookup_count_fill. unfold count_or_zero, lookup_count.
    destruct (lookup_series cd crime nbhd) as [nco|]; [|congruence].
    destruct (series_count nco (PInt y) (PInt m)); [reflexivity|].
    rewrite (proj2 (in_months_In _ y m) (months_in_range_complete _ _ _ _ Hr)).
    reflexivity.
  - intros crime nbhd y m v H. rewrite lookup_count_fill.
    unfold lookup_count in H.
    destruct (lookup_series cd crime nbhd) as [nco|]; [|discriminate].
    rewrite H. reflexivity.
  - intros crime nbhd H. rewrite lookup_series_fill, H. reflexivity.
Qed.

(** C7. [fill_gaps] twice with the same range gives the store that
    [fill_gaps] once gives (and raises what the first call raises). *)
Theorem fill_gaps_idempotent :
  forall (cd : CrimeData) (start_year_month end_year_month : option pytuple),
    (cd1 <- CrimeDataImpl.fill_gaps cd start_year_month end_year_month ;;
     CrimeDataImpl.fill_gaps cd1 start_year_month end_year_month)
    = CrimeDataImpl.fill_gaps cd start_year_month end_year_month.
Proof.
  intros cd a b. unfold CrimeDataImpl.fill_gaps.
  destruct (bind (subscript0 a) as_int) as [sy|]; cbn [bind]; [|reflexivity].
  destruct (bind (subscript1 a) as_int) as [sm|]; cbn [bind]; [|reflexivity].
  destruct (bind (subscript0 b) as_int) as [ey|]; cbn [bind]; [|reflexivity].
  destruct (bind (subscript1 b) as_int) as [em|]; cbn [bind]; [|reflexivity].
  cbn [crime_occurrences]. do 2 f_equal.
  apply dict_map_values_idempotent. intros ns.
  apply dict_map_values_idempotent. intros nco.
  apply fill_series_idempotent.
Qed.

(** ** The invariant of the lifecycle *)

Lemma dict_values_map_values {V W : Type} (Q : W -> bool) (f : V -> W)
    (d : dict V) :
  forallb (fun e => Q (snd e)) (dict_map_values f d)
  = forallb (fun e => Q (f (snd e))) d.
Proof.
  induction d as [|[k v] rest IH]; simpl; [reflexivity|].
  rewrite <- IH. reflexivity.
Qed.

Lemma series_wf_fill_month (occ : dict (dict pyval)) (ym : Z * Z) :
  series_wf {| occurrences := occ |} = true ->
  series_wf {| occurrences := fill_month occ ym |} = true.
Proof.
  unfold series_wf, fill_month. cbn [occurrences]. intros H.
  apply andb_true_iff in H as [H1 H2]. apply andb_true_iff. split.
  - apply dict_wf_set, H1.
  - apply (dict_values_set dict_wf); [exact H2|].
    apply dict_wf_setdefault.
    destruct (dict_get occ (PInt (fst ym))) as [ms|] eqn:E; [|reflexivity].
    exact (dict_values_get dict_wf occ _ ms H2 E).
Qed.

Lemma series_wf_fill (months : list (Z * Z)) (nco : NeighbourhoodCrimeOccurrences) :
  series_wf nco = true -> series_wf (fill_series months nco) = true.
Proof.
  destruct nco as [occ]. unfold fill_series. cbn [occurrences].
  revert occ. induction months as [|ym months IH]; intros occ H; cbn [fold_left].
  - exact H.
  - apply IH, series_wf_fill_month, H.
Qed.

Lemma store_wf_fill (months : list (Z * Z)) (cd : CrimeData) :
  store_wf cd = true ->
  store_wf
    {| crime_occurrences :=
         dict_map_values (dict_map_values (fill_series months))
           (crime_occurrences cd) |} = true.
Proof.
  unfold store_wf. cbn [crime_occurrences]. intros H.
  apply andb_true_iff in H as [H1 H2]. apply andb_true_iff. split.
  - rewrite dict_wf_map_values. exact H1.
  - rewrite (dict_values_map_values neighbourhoods_wf).
    rewrite forallb_forall in *. intros [c ns] Hin. cbn [snd].
    specialize (H2 _ Hin). cbn [snd] in H2. unfold neighbourhoods_wf in *.
    apply andb_true_iff in H2 as [Hn1 Hn2]. apply andb_true_iff. split.
    + rewrite dict_wf_map_values. exact Hn1.
    + rewrite (dict_values_map_values series_wf).
      rewrite forallb_forall in *. intros [n nco] Hin'. cbn [snd].
      apply series_wf_fill. exact (Hn2 _ Hin').
Qed.

(** A leaf of a well-formed store is what the lookup of its key path
    returns. *)
Lemma leaves_lookup (cd : CrimeData) (c n y m v : pyval) :
  store_wf cd = true -> In (c, n, y, m, v) (leaves cd) ->
  lookup_count cd c n y m = Some v.
Proof.
  intros Hwf Hin. unfold leaves in Hin.
  apply in_flat_map in Hin as ([c1 ns] & Hc & Hin). cbn [fst snd] in Hin.
  apply in_flat_map in Hin as ([n1 nco] & Hn & Hin). cbn [fst snd] in Hin.
  apply in_flat_map in Hin as ([y1 ms] & Hy & Hin). cbn [fst snd] in Hin.
  apply in_map_iff in Hin as ([m1 v1] & Heq & Hm). cbn [fst snd] in Heq.
  inversion Heq; subst.
  pose proof Hwf as Hwf0. unfold store_wf in Hwf.
  apply andb_true_iff in Hwf as [W1 W2].
  pose proof (dict_wf_In_get _ _ _ W1 Hc) as G1.
  pose proof (store_wf_neighbourhoods cd c ns Hwf0 G1) as Wn.
  unfold neighbourhoods_wf in Wn. apply andb_true_iff in Wn as [Wn1 Wn2].
  pose proof (dict_wf_In_get _ _ _ Wn1 Hn) as G2.
  pose proof (dict_values_get series_wf _ _ _ Wn2 G2) as Ws.
  unfold series_wf in Ws. apply andb_true_iff in Ws as [Ws1 Ws2].
  pose proof (dict_wf_In_get _ _ _ Ws1 Hy) as G3.
  pose proof (dict_values_get dict_wf _ _ _ Ws2 G3) as Wm.
  pose proof (dict_wf_In_get _ _ _ Wm Hm) as G4.
  unfold lookup_count, lookup_series, series_count, occ_count.
  rewrite G1, G2, G3. exact G4.
Qed.

Lemma counts_nonneg_new : counts_nonneg CrimeDataImpl.new.
Proof. split; [reflexivity|]. intros c n y m v H. discriminate. Qed.

Lemma counts_nonneg_increment (cd : CrimeData) (c n y m amount : pyval) :
  counts_nonneg cd -> nonneg_count amount ->
  exists cd', CrimeDataImpl.increment_crime cd c n y m amount = Ok cd'
              /\ counts_nonneg cd'.
Proof.
  intros [Hwf Hnn] (a & -> & Ha).
  assert (H0 : exists z, count_or_zero cd c n y m = PInt z /\ 0 <= z).
  { unfold count_or_zero.
    destruct (lookup_count cd c n y m) as [v|] eqn:E.
    - exact (Hnn _ _ _ _ _ E).
    - exists 0. split; [reflexivity|lia]. }
  destruct H0 as (z & Hz & Hz0).
  rewrite increment_crime_put, Hz. cbn [py_add as_number bind].
  eexists. split; [reflexivity|]. split; [apply store_wf_put, Hwf|].
  intros c' n' y' m' v. rewrite lookup_count_put.
  destruct (_ && _).
  - intros H. inversion H; subst. exists (z + a). split; [reflexivity|lia].
  - apply Hnn.
Qed.

Lemma counts_nonneg_fill_gaps (cd : CrimeData) (sy sm ey em : Z) :
  counts_nonneg cd ->
  exists cd',
    CrimeDataImpl.fill_gaps cd (Some (PInt sy, PInt sm)) (Some (PInt ey, PInt em))
    = Ok cd'
    /\ counts_nonneg cd'.
Proof.
  intros [Hwf Hnn]. eexists. split; [apply fill_gaps_int|].
  split; [apply store_wf_fill, Hwf|].
  intros c n y m v. rewrite lookup_count_fill.
  destruct (lookup_series cd c n) as [nco|] eqn:E; [|discriminate].
  destruct (series_count nco y m) as [v0|] eqn:E0.
  - intros H. inversion H; subst. apply (Hnn c n y m).
    unfold lookup_count. rewrite E. exact E0.
  - destruct (in_months _ y m); [|discriminate].
    intros H. inversion H; subst. exists 0. split; [reflexivity|lia].
Qed.

Lemma counts_nonneg_run (calls : list call) :
  forall cd : CrimeData,
    counts_nonneg cd -> Forall nonneg_call calls ->
    exists cd', run_calls calls cd = Ok cd' /\ counts_nonneg cd'.
Proof.
  induction calls as [|c calls IH]; intros cd Hinv Hcalls.
  - exists cd. split; [reflexivity|exact Hinv].
  - inversion Hcalls as [|? ? Hc Hrest]; subst.
    unfold run_calls. cbn [for_each].
    assert (H1 : exists cd1, run_call c cd = Ok cd1 /\ counts_nonneg cd1).
    { destruct c as [crime nbhd y m amount|a b]; cbn [run_call nonneg_call] in *.
      - apply counts_nonneg_increment; assumption.
      - destruct Hc as (sy & sm & ey & em & -> & ->).
        apply counts_nonneg_fill_gaps; assumption. }
    destruct H1 as (cd1 & -> & Hinv1). cbn [bind].
    apply IH; assumption.
Qed.

(** C8, as the code has it. From the empty store, after any sequence
    of increments by non-negative integer amounts and gap fills over
    integer ranges, the calls all return and every count stored at a
    leaf is a non-negative integer. *)
Theorem counts_stay_nonneg :
  forall calls : list call,
    Forall nonneg_call calls ->
    exists cd,
      run_calls calls CrimeDataImpl.new = Ok cd
      /\ Forall (fun r => nonneg_count (record_count r)) (leaves cd).
Proof.
  intros calls Hcalls.
  destruct (counts_nonneg_run calls CrimeDataImpl.new counts_nonneg_new Hcalls)
    as (cd & Hrun & Hwf & Hnn).
  exists cd. split; [exact Hrun|].
  apply Forall_forall. intros [[[[c n] y] m] v] Hin.
  unfold record_count. cbn [snd].
  exact (Hnn c n y m v (leaves_lookup cd c n y m v Hwf Hin)).
Qed.

Lemma counts_stay_nonneg_witness :
  exists cd,
    run_calls
      [CallIncrementCrime (PStr "Theft") (PStr "X") (PInt 2003) (PInt 1) (PInt 2);
       CallFillGaps (Some (PInt 2003, PInt 1)) (Some (PInt 2003, PInt 3))]
      CrimeDataImpl.new = Ok cd
    /\ Forall (fun r => nonneg_count (record_count r)) (leaves cd).
Proof.
  apply counts_stay_nonneg.
  apply Forall_cons.
  - exists 2. split; [reflexivity|lia].
  - apply Forall_cons; [|apply Forall_nil].
    exists 2003, 1, 2003, 3. split; reflexivity.
Defined.

(** C8 as stated fails: an increment by an arbitrary integer, as
    processed mode makes when the count column of a row holds -1,
    leaves a negative count. *)
Lemma counts_nonneg_counterexample :
  ~ (forall calls : list call,
       Forall integer_call calls ->
       forall cd, run_calls calls CrimeDataImpl.new = Ok cd ->
                  Forall (fun r => nonneg_count (record_count r)) (leaves cd))
  /\ exists cd,
       get_vancouver_data
         [[PStr "Theft"; PStr "X"; PInt 2003; PInt 1; PInt (-1)]] = Ok cd
       /\ leaves cd = [(PStr "Theft", PStr "X", PInt 2003, PInt 1, PInt (-1))].
Proof.
  split.
  - intros H.
    specialize (H [CallIncrementCrime (PStr "Theft") (PStr "X") (PInt 2003)
                     (PInt 1) (PInt (-1))]).
    assert (Hc : Forall integer_call
                   [CallIncrementCrime (PStr "Theft") (PStr "X") (PInt 2003)
                      (PInt 1) (PInt (-1))]).
    { apply Forall_cons; [exists (-1); reflexivity|apply Forall_nil]. }
    specialize (H Hc _ eq_refl).
    inversion H as [|? ? (z & Hz & Hz0) _]; subst.
    unfold record_count in Hz. cbn in Hz. inversion Hz; subst. lia.
  - eexists. split; reflexivity.
Qed.

(** ** The two modes of [build_crime_data_class] *)

Lemma bind_Ok_r {A : Type} (c : result A) : (x <- c ;; Ok x) = c.
Proof. destruct c; reflexivity. Qed.

Lemma is_ok_false_bind {A B : Type} (c : result A) (k : A -> result B) :
  is_ok c = false -> is_ok (x <- c ;; k x) = false.
Proof. destruct c; [discriminate|reflexivity]. Qed.

(** C3. In raw mode, when every cell read is there and every date
    can be built, [build_crime_data_class] does to the new store, in
    order, one increment by 1 at the key of each row whose (year,
    month) passes [check_date_in_range] with the caller's range,
    nothing for the other rows, and then one [fill_gaps] with that
    range; it raises when a cell or a date is not as needed. *)
Theorem raw_mode_pipeline :
  forall (S : Type) (ops : CrimeDataOps S) (rows : list row)
         (cc cy cm cn : Z) (cocc : option Z) (a b : option pytuple),
    match raw_calls cc cy cm cn a b rows with
    | Ok calls =>
        build_crime_data_class rows cc cy cm cn false cocc a b
        = run_calls calls CrimeData_new
        /\ exists (in_range : list bool) (sel : list row) (incs : list call),
             mapM (row_in_range a b cy cm) rows = Ok in_range
             /\ sel = map fst (filter snd (combine rows in_range))
             /\ Forall2 (fun r c =>
                  exists crime nbhd y m,
                    row_getitem r cc = Ok crime /\ row_getitem r cn = Ok nbhd
                    /\ row_getitem r cy = Ok y /\ row_getitem r cm = Ok m
                    /\ c = CallIncrementCrime crime nbhd y m (PInt 1)) sel incs
             /\ calls = incs ++ [CallFillGaps a b]
    | Raise _ =>
        is_ok (build_crime_data_class (S := S) rows cc cy cm cn false cocc a b)
        = false
    end.
Proof.
  intros S ops rows cc cy cm cn cocc a b.
  unfold raw_calls, build_crime_data_class. cbn [negb].
  destruct (filterM (row_in_range a b cy cm) rows) as [sel|e] eqn:Ef; cbn [bind].
  - destruct (mapM _ sel) as [incs|e] eqn:Em; cbn [bind].
    + split.
      * rewrite (raw_loop_run cc cy cm cn a b rows sel incs _ Ef Em).
        rewrite run_calls_app. unfold run_calls at 3. cbn [for_each run_call].
        destruct (run_calls incs CrimeData_new); cbn [bind]; [|reflexivity].
        symmetry. apply bind_Ok_r.
      * destruct (filterM_spec _ _ _ Ef) as (bs & Hbs & Hsel).
        exists bs, sel, incs. repeat split; try assumption.
        pose proof (row_increment_calls cc cy cm cn _ _ _ Em) as HF.
        clear - HF. induction HF as [|r c sel incs Hrc HF IH]; constructor; auto.
        destruct Hrc as (crime & nbhd & y & m & v & H1 & H2 & H3 & H4 & H5 & H6).
        inversion H5; subst. exists crime, nbhd, y, m. auto.
    + apply is_ok_false_bind.
      match goal with |- is_ok ?c = false => destruct c as [s|] eqn:El end;
        [|reflexivity].
      apply (raw_loop_calls cc cy cm cn a b) in El as (sel' & incs & H1 & H2 & _).
      congruence.
  - apply is_ok_false_bind.
    match goal with |- is_ok ?c = false => destruct c as [s|] eqn:El end;
      [|reflexivity].
    apply (raw_loop_calls cc cy cm cn a b) in El as (sel' & incs & H1 & H2 & _).
    congruence.
Qed.

(** C4. In processed mode, when every cell read is there,
    [build_crime_data_class] does to the new store, in order, one
    increment at the key of every row, by the value of the row's count
    column: no row is filtered by date and [fill_gaps] is not called;
    it raises when a cell is missing. *)
Theorem processed_mode_pipeline :
  forall (S : Type) (ops : CrimeDataOps S) (rows : list row)
         (cc cy cm cn : Z) (cocc : option Z) (a b : option pytuple),
    match processed_calls cc cy cm cn cocc rows with
    | Ok calls =>
        build_crime_data_class rows cc cy cm cn true cocc a b
        = run_calls calls CrimeData_new
        /\ Forall2 (fun r c =>
             exists crime nbhd y m v,
               row_getitem r cc = Ok crime /\ row_getitem r cn = Ok nbhd
               /\ row_getitem r cy = Ok y /\ row_getitem r cm = Ok m
               /\ row_getitem_opt r cocc = Ok v
               /\ c = CallIncrementCrime crime nbhd y m v) rows calls
    | Raise _ =>
        is_ok (build_crime_data_class (S := S) rows cc cy cm cn true cocc a b)
        = false
    end.
Proof.
  intros S ops rows cc cy cm cn cocc a b.
  unfold build_crime_data_class. cbn [negb].
  destruct (processed_calls cc cy cm cn cocc rows) as [calls|e] eqn:E.
  - split.
    + apply processed_loop_run, E.
    + apply (row_increment_calls cc cy cm cn _ rows calls E).
  - apply (processed_loop_raise cc cy cm cn cocc rows e _ E).
Qed.

Lemma date_le_refl (d : datetime.date) : datetime.le d d = true.
Proof.
  unfold datetime.le. rewrite !Z.eqb_refl. apply Z.leb_refl.
Qed.

Lemma raw_calls_amount (cc cy cm cn : Z) (a b : option pytuple)
    (rows : list row) (calls : list call) (c : call) :
  raw_calls cc cy cm cn a b rows = Ok calls ->
  In c calls -> is_increment c = true -> call_amount c = Some (PInt 1).
Proof.
  unfold raw_calls. intros H Hin Hinc.
  destruct (filterM _ rows) as [sel|]; cbn [bind] in H; [|discriminate].
  destruct (mapM _ sel) as [incs|] eqn:Em; cbn [bind] in H; [|discriminate].
  inversion H; subst. apply in_app_or in Hin as [Hin|[<-|[]]]; [|discriminate].
  pose proof (row_increment_calls cc cy cm cn _ _ _ Em) as HF.
  clear - HF Hin. induction HF as [|r c0 sel incs Hrc HF IH]; [destruct Hin|].
  destruct Hin as [->|Hin]; [|auto].
  destruct Hrc as (crime & nbhd & y & m & v & _ & _ & _ & _ & Hv & ->).
  inversion Hv; subst. reflexivity.
Qed.

(** C10. In raw mode the result does not depend on
    [col_num_occurrences], and every increment is by 1 whatever the
    rows hold; so the two modes differ on a row of the range whose
    count column holds an integer other than 1: raw mode stores 1,
    processed mode the count. *)
Theorem raw_mode_ignores_occurrences :
  (forall (S : Type) (ops : CrimeDataOps S) (rows : list row)
          (cc cy cm cn : Z) (cocc cocc' : option Z) (a b : option pytuple),
      build_crime_data_class (S := S) rows cc cy cm cn false cocc a b
      = build_crime_data_class rows cc cy cm cn false cocc' a b)
  /\ (forall (rows : list row) (cc cy cm cn : Z) (a b : option pytuple)
             (calls : list call) (c : call),
        raw_calls cc cy cm cn a b rows = Ok calls ->
        In c calls -> is_increment c = true -> call_amount c = Some (PInt 1))
  /\ (forall (crime nbhd : pyval) (y m k : Z),
        valid_year_month y m -> k <> 1 ->
        exists cd_raw cd_processed : CrimeData,
          build_crime_data_class [[crime; nbhd; PInt y; PInt m; PInt k]]
            0 2 3 1 false (Some 4) (Some (PInt y, PInt m)) (Some (PInt y, PInt m))
          = Ok cd_raw
          /\ build_crime_data_class [[crime; nbhd; PInt y; PInt m; PInt k]]
               0 2 3 1 true (Some 4) (Some (PInt y, PInt m)) (Some (PInt y, PInt m))
             = Ok cd_processed
          /\ lookup_count cd_raw crime nbhd (PInt y) (PInt m) = Some (PInt 1)
          /\ lookup_count cd_processed crime nbhd (PInt y) (PInt m)
             = Some (PInt k)
          /\ cd_raw <> cd_processed).
Proof.
  split; [reflexivity|]. split.
  - intros rows cc cy cm cn a b calls c. apply raw_calls_amount.
  - intros crime nbhd y m k Hv Hk.
    set (r := [crime; nbhd; PInt y; PInt m; PInt k]).
    assert (R0 : row_getitem r 0 = Ok crime) by reflexivity.
    assert (R1 : row_getitem r 1 = Ok nbhd) by reflexivity.
    assert (R2 : row_getitem r 2 = Ok (PInt y)) by reflexivity.
    assert (R3 : row_getitem r 3 = Ok (PInt m)) by reflexivity.
    assert (R4 : row_getitem_opt r (Some 4) = Ok (PInt k)) by reflexivity.
    unfold build_crime_data_class. cbn [negb for_each].
    rewrite R0, R1, R2, R3, R4. cbn [bind].
    rewrite (check_date_in_range_valid y m y m y m Hv Hv Hv), date_le_refl.
    cbn [andb bind CrimeData_new increment_crime fill_gaps CrimeData_ops].
    rewrite !increment_crime_put.
    assert (H0 : count_or_zero CrimeDataImpl.new crime nbhd (PInt y) (PInt m)
                 = PInt 0) by reflexivity.
    rewrite H0. cbn [py_add as_number bind Z.add].
    rewrite fill_gaps_int.
    eexists. eexists. split; [reflexivity|]. split; [reflexivity|].
    assert (Hraw : lookup_count
              {| crime_occurrences :=
                   dict_map_values
                     (dict_map_values
                        (fill_series (months_in_range (y, m) (y, m))))
                     (crime_occurrences
                        (store_put CrimeDataImpl.new crime nbhd (PInt y) (PInt m)
                           (PInt 1))) |} crime nbhd (PInt y) (PInt m)
            = Some (PInt 1)).
    { rewrite lookup_count_fill, lookup_series_put, !py_eqb_refl. cbn [andb].
      unfold series_count. cbn [occurrences]. cbv zeta.
      rewrite occ_count_set, !py_eqb_refl. reflexivity. }
    assert (Hproc : lookup_count
              (store_put CrimeDataImpl.new crime nbhd (PInt y) (PInt m) (PInt k))
              crime nbhd (PInt y) (PInt m) = Some (PInt k)).
    { rewrite lookup_count_put, !py_eqb_refl. reflexivity. }
    split; [exact Hraw|]. split; [exact Hproc|].
    intros Heq. rewrite Heq, Hproc in Hraw. congruence.
Qed.

Lemma raw_mode_ignores_occurrences_witness :
  exists cd_raw cd_processed : CrimeData,
    build_crime_data_class
      [[PStr "Theft"; PStr "X"; PInt 2003; PInt 1; PInt 7]]
      0 2 3 1 false (Some 4) (Some (PInt 2003, PInt 1)) (Some (PInt 2003, PInt 1))
    = Ok cd_raw
    /\ build_crime_data_class
         [[PStr "Theft"; PStr "X"; PInt 2003; PInt 1; PInt 7]]
         0 2 3 1 true (Some 4) (Some (PInt 2003, PInt 1)) (Some (PInt 2003, PInt 1))
       = Ok cd_processed
    /\ lookup_count cd_raw (PStr "Theft") (PStr "X") (PInt 2003) (PInt 1)
       = Some (PInt 1)
    /\ lookup_count cd_processed (PStr "Theft") (PStr "X") (PInt 2003) (PInt 1)
       = Some (PInt 7)
    /\ cd_raw <> cd_processed.
Proof.
  apply (proj2 (proj2 raw_mode_ignores_occurrences)
           (PStr "Theft") (PStr "X") 2003 1 7).
  - unfold valid_year_month, datetime.MINYEAR, datetime.MAXYEAR. lia.
  - discriminate.
Defined.

(** ** Export *)

Lemma records_fd_of_records (rs : list record) : records (fd_of_records rs) = rs.
Proof.
  unfold records, fd_of_records. cbn [crime_type neighbourhood year month count].
  induction rs as [|[[[[c n] y] m] v] rs IH]; [reflexivity|].
  cbn [map zip5 fst snd]. rewrite IH. reflexivity.
Qed.

Lemma fd_of_records_append (rs : list record) (c n y m v : pyval) :
  formatted_dict_append (fd_of_records rs) c n y m v
  = fd_of_records (rs ++ [(c, n, y, m, v)]).
Proof.
  unfold formatted_dict_append, fd_of_records.
  cbn [crime_type neighbourhood year month count].
  rewrite !map_app. reflexivity.
Qed.

(** A loop over the keys of a dict whose body, at a key and its value,
    appends the records [F] gives for that entry, appends them all in
    the order of the dict. *)
Lemma for_each_dict_collect {V : Type} (d : dict V)
    (F : pyval * V -> list record)
    (body : pyval -> formatted_dict -> result formatted_dict) :
  dict_wf d = true ->
  (forall k v rs, In (k, v) d -> dict_get d k = Some v ->
     body k (fd_of_records rs) = Ok (fd_of_records (rs ++ F (k, v)))) ->
  forall rs,
    for_each (dict_keys d) body (fd_of_records rs)
    = Ok (fd_of_records (rs ++ flat_map F d)).
Proof.
  intros Hwf Hbody.
  assert (H : forall l, incl l d -> forall rs,
            for_each (dict_keys l) body (fd_of_records rs)
            = Ok (fd_of_records (rs ++ flat_map F l))).
  { induction l as [|[k v] l IH]; intros Hl rs.
    - simpl. rewrite app_nil_r. reflexivity.
    - cbn [dict_keys map fst for_each flat_map].
      assert (Hin : In (k, v) d) by (apply Hl; left; reflexivity).
      rewrite (Hbody k v rs Hin (dict_wf_In_get d k v Hwf Hin)). cbn [bind].
      fold (dict_keys l). rewrite IH by (intros x Hx; apply Hl; right; exact Hx).
      rewrite app_assoc. reflexivity. }
  apply H. apply incl_refl.
Qed.

(** The conforming leaves, gathered level by level. *)
Lemma conforming_leaves (cd : CrimeData) :
  filter conforming (leaves cd)
  = flat_map (fun e1 =>
      flat_map (fun e2 =>
        flat_map (fun e3 =>
          flat_map (fun e4 =>
            if conforming (fst e1, fst e2, fst e3, fst e4, snd e4)
            then [(fst e1, fst e2, fst e3, fst e4, snd e4)] else [])
            (snd e3))
          (occurrences (snd e2)))
        (snd e1))
      (crime_occurrences cd).
Proof.
  unfold leaves. rewrite filter_flat_map. apply flat_map_ext. intros e1.
  rewrite filter_flat_map. apply flat_map_ext. intros e2.
  rewrite filter_flat_map. apply flat_map_ext. intros e3.
  apply filter_map_flat_map.
Qed.

Lemma create_csv_records (cd : CrimeData) :
  store_wf cd = true ->
  create_csv cd = Ok (fd_of_records (filter conforming (leaves cd))).
Proof.
  intros Hwf. rewrite conforming_leaves. unfold create_csv.
  change {| crime_type := []; neighbourhood := []; year := []; month := [];
            count := [] |} with (fd_of_records []).
  pose proof Hwf as Hwf0. unfold store_wf in Hwf.
  apply andb_true_iff in Hwf as [W1 W2].
  rewrite <- (app_nil_l (flat_map _ (crime_occurrences cd))).
  apply for_each_dict_collect; [exact W1|].
  intros crime d1 rs1 Hin1 G1. cbn [fst snd].
  unfold dict_getitem at 1. rewrite G1. cbn [bind].
  pose proof (store_wf_neighbourhoods cd crime d1 Hwf0 G1) as Wn.
  unfold neighbourhoods_wf in Wn. apply andb_true_iff in Wn as [Wn1 Wn2].
  apply for_each_dict_collect; [exact Wn1|].
  intros nbhd d2 rs2 Hin2 G2. cbn [fst snd].
  unfold dict_getitem at 1 2. rewrite G1. cbn [bind]. rewrite G2. cbn [bind].
  pose proof (dict_values_get series_wf _ _ _ Wn2 G2) as Ws.
  unfold series_wf in Ws. apply andb_true_iff in Ws as [Ws1 Ws2].
  apply for_each_dict_collect; [exact Ws1|].
  intros y d3 rs3 Hin3 G3. cbn [fst snd].
  unfold dict_getitem at 1 2 3. rewrite G1. cbn [bind]. rewrite G2. cbn [bind].
  rewrite G3. cbn [bind].
  pose proof (dict_values_get dict_wf _ _ _ Ws2 G3) as Wm.
  apply for_each_dict_collect; [exact Wm|].
  intros m c rs4 Hin4 G4. cbn [fst snd].
  unfold dict_getitem. rewrite G1. cbn [bind]. rewrite G2. cbn [bind].
  rewrite G3. cbn [bind]. rewrite G4. cbn [bind].
  unfold conforming.
  destruct (isinstance_str crime && isinstance_str nbhd && isinstance_int y
            && isinstance_int m && isinstance_int c).
  - rewrite fd_of_records_append. reflexivity.
  - rewrite app_nil_r. reflexivity.
Qed.

(** C5. [create_csv] on a store returns without raising, and the
    records it emits are exactly the leaves of the store of the shape
    (str, str, int, int, int), one record a leaf, in the order of the
    store: a leaf of another shape is left out, and the conforming
    ones are all there. *)
Theorem create_csv_emits_conforming_leaves :
  forall cd : CrimeData,
    store_wf cd = true ->
    exists fd,
      create_csv cd = Ok fd
      /\ records fd = filter conforming (leaves cd)
      /\ (forall r, In r (records fd) <-> In r (leaves cd) /\ conforming r = true).
Proof.
  intros cd Hwf. exists (fd_of_records (filter conforming (leaves cd))).
  split; [apply create_csv_records, Hwf|].
  split; [apply records_fd_of_records|].
  intros r. rewrite records_fd_of_records. apply filter_In.
Qed.

Lemma create_csv_emits_conforming_leaves_witness :
  store_wf example_store = true
  /\ exists fd,
       create_csv example_store = Ok fd
       /\ records fd = filter conforming (leaves example_store)
       /\ (forall r, In r (records fd)
                     <-> In r (leaves example_store) /\ conforming r = true).
Proof.
  split; [reflexivity|].
  apply (create_csv_emits_conforming_leaves example_store). reflexivity.
Defined.

(** ** Examples *)

(** The export of the example store drops the two leaves of another
    shape and keeps the rest in order. *)
Example create_csv_example :
  export (Ok example_store)
  = Ok [ (PStr "Theft", PStr "X", PInt 2003, PInt 1, PInt 2);
         (PStr "Mischief", PStr "Y", PInt 2004, PInt 12, PInt 0) ].
Proof. reflexivity. Qed.

(** Three raw rows over January to March 2003: two incidents in
    January, none in February, one in March. *)
Example raw_mode_example :
  export (build_crime_data_class example_rows 0 1 2 3 false None
            (Some (PInt 2003, PInt 1)) (Some (PInt 2003, PInt 3)))
  = Ok [ (PStr "Theft", PStr "X", PInt 2003, PInt 1, PInt 2);
         (PStr "Theft", PStr "X", PInt 2003, PInt 3, PInt 1);
         (PStr "Theft", PStr "X", PInt 2003, PInt 2, PInt 0) ].
Proof. reflexivity. Qed.

(** An increment by 0 creates the key path with the count 0. *)
Example increment_zero_example :
  export (CrimeDataImpl.increment_crime CrimeDataImpl.new
            (PStr "Theft") (PStr "X") (PInt 2003) (PInt 1) (PInt 0))
  = Ok [ (PStr "Theft", PStr "X", PInt 2003, PInt 1, PInt 0) ].
Proof. reflexivity. Qed.

(** A range whose start is after its end fills nothing. *)
Example months_in_range_empty :
  months_in_range (2004, 5) (2004, 2) = []
  /\ months_in_range (2005, 1) (2004, 12) = [].
Proof. split; reflexivity. Qed.

Example months_in_range_rollover :
  months_in_range (2003, 11) (2004, 2)
  = [(2003, 11); (2003, 12); (2004, 1); (2004, 2)].
Proof. reflexivity. Qed.

(** Counts other than 1 do not force the two modes apart: two rows at
    one key with the counts 2 and 0 give the count 2 in both. *)
Example modes_may_coincide :
  build_crime_data_class (S := CrimeData)
    [ [PStr "Theft"; PStr "X"; PInt 2003; PInt 1; PInt 2];
      [PStr "Theft"; PStr "X"; PInt 2003; PInt 1; PInt 0] ]
    0 2 3 1 false (Some 4) (Some (PInt 2003, PInt 1)) (Some (PInt 2003, PInt 1))
  = build_crime_data_class
      [ [PStr "Theft"; PStr "X"; PInt 2003; PInt 1; PInt 2];
        [PStr "Theft"; PStr "X"; PInt 2003; PInt 1; PInt 0] ]
      0 2 3 1 true (Some 4) (Some (PInt 2003, PInt 1)) (Some (PInt 2003, PInt 1)).
Proof. reflexivity. Qed.

(** Processed mode without a count column raises. *)
Example processed_mode_no_count_column :
  build_crime_data_class (S := CrimeData) example_rows 0 1 2 3 true None None None
  = Raise KeyError.
Proof. reflexivity. Qed.

(** Raw mode without a range raises. *)
Example raw_mode_no_range :
  build_crime_data_class (S := CrimeData) example_rows 0 1 2 3 false None None None
  = Raise TypeError.
Proof. reflexivity. Qed.

(** * Further properties *)

(** ** The range predicate *)

Lemma as_c_int_as_number (v : pyval) :
  datetime.as_c_int (as_number v) = datetime.as_c_int v.
Proof. destruct v as [s|z|[|]|]; reflexivity. Qed.

Lemma as_c_int_Ok (v : pyval) (z : Z) :
  datetime.as_c_int v = Ok z -> as_number v = PInt z.
Proof.
  destruct v as [s|x|b|]; cbn [datetime.as_c_int as_number]; try discriminate.
  - destruct (_ && _); congruence.
  - congruence.
Qed.

Lemma date_new_as_number (y m d : pyval) :
  datetime.date_new y m d = datetime.date_new (as_number y) (as_number m) d.
Proof. unfold datetime.date_new. rewrite !as_c_int_as_number. reflexivity. Qed.

Lemma date_new_calendar (t : pytuple) :
  calendar_pair t ->
  exists y m, as_number (fst t) = PInt y /\ as_number (snd t) = PInt m
              /\ valid_year_month y m
              /\ datetime.date_new (fst t) (snd t) (PInt 1)
                 = Ok (datetime.mkdate y m 1).
Proof.
  intros (y & m & Hy & Hm & Hv). exists y, m. repeat split; try assumption;
    try apply Hv.
  rewrite date_new_as_number, Hy, Hm. apply date_new_valid, Hv.
Qed.

Lemma date_new_Ok_calendar (y m : pyval) (dt : datetime.date) :
  datetime.date_new y m (PInt 1) = Ok dt -> calendar_pair (y, m).
Proof.
  unfold datetime.date_new. intros H.
  destruct (datetime.as_c_int y) as [y'|] eqn:Ey; cbn [bind] in H; [|discriminate].
  destruct (datetime.as_c_int m) as [m'|] eqn:Em; cbn [bind] in H; [|discriminate].
  destruct (datetime.as_c_int (PInt 1)); cbn [bind] in H; [|discriminate].
  destruct ((datetime.MINYEAR <=? y') && (y' <=? datetime.MAXYEAR)) eqn:Cy;
    cbn [negb] in H; [|discriminate].
  destruct ((1 <=? m') && (m' <=? 12)) eqn:Cm; cbn [negb] in H; [|discriminate].
  apply andb_true_iff in Cy as [Cy1 Cy2]. apply andb_true_iff in Cm as [Cm1 Cm2].
  apply Z.leb_le in Cy1, Cy2, Cm1, Cm2.
  exists y', m'. cbn [fst snd]. unfold valid_year_month.
  split; [apply as_c_int_Ok, Ey|]. split; [apply as_c_int_Ok, Em|]. lia.
Qed.

(** X1. On tuples, [check_date_in_range] returns a boolean exactly
    when each of the three is a pair of integers that form a calendar
    (year, month): year 1 to 9999, month 1 to 12; otherwise it raises. *)
Theorem check_date_in_range_returns_iff :
  forall s e d : pytuple,
    (exists b, check_date_in_range (Some s) (Some e) d = Ok b)
    <-> calendar_pair s /\ calendar_pair e /\ calendar_pair d.
Proof.
  intros [sy sm] [ey em] [y m]. split.
  - intros [b H]. unfold check_date_in_range in H.
    cbn [subscript0 subscript1 bind fst snd] in H.
    destruct (datetime.date_new sy sm (PInt 1)) as [ds|] eqn:Es;
      cbn [bind] in H; [|discriminate].
    destruct (datetime.date_new ey em (PInt 1)) as [de|] eqn:Ee;
      cbn [bind] in H; [|discriminate].
    destruct (datetime.date_new y m (PInt 1)) as [dd|] eqn:Ed;
      cbn [bind] in H; [|discriminate].
    split; [|split]; eapply date_new_Ok_calendar; eassumption.
  - intros (Hs & He & Hd).
    destruct (date_new_calendar _ Hs) as (? & ? & _ & _ & _ & Es).
    destruct (date_new_calendar _ He) as (? & ? & _ & _ & _ & Ee).
    destruct (date_new_calendar _ Hd) as (? & ? & _ & _ & _ & Ed).
    cbn [fst snd] in Es, Ee, Ed.
    unfold check_date_in_range. cbn [subscript0 subscript1 bind fst snd].
    rewrite Es. cbn [bind]. rewrite Ee. cbn [bind]. rewrite Ed. cbn [bind].
    eexists. reflexivity.
Qed.

Lemma check_date_in_range_lex (sy sm ey em y m : Z) :
  valid_year_month sy sm -> valid_year_month ey em -> valid_year_month y m ->
  check_date_in_range (Some (PInt sy, PInt sm)) (Some (PInt ey, PInt em))
    (PInt y, PInt m) = Ok true
  <-> ym_le (sy, sm) (y, m) /\ ym_le (y, m) (ey, em).
Proof.
  intros Hs He Hd.
  rewrite (check_date_in_range_valid _ _ _ _ _ _ Hs He Hd).
  unfold valid_year_month in *. rewrite !date_le_month_index by tauto.
  unfold ym_le, month_index. cbn [fst snd]. split.
  - intros H. inversion H as [H1]. apply andb_true_iff in H1 as [H2 H3].
    apply Z.leb_le in H2, H3. lia.
  - intros H. f_equal. apply andb_true_iff. split; apply Z.leb_le; lia.
Qed.

Lemma check_date_in_range_inverted (sy sm ey em y m : Z) :
  valid_year_month sy sm -> valid_year_month ey em -> valid_year_month y m ->
  ~ ym_le (sy, sm) (ey, em) ->
  check_date_in_range (Some (PInt sy, PInt sm)) (Some (PInt ey, PInt em))
    (PInt y, PInt m) = Ok false.
Proof.
  intros Hs He Hd H.
  rewrite (check_date_in_range_valid _ _ _ _ _ _ Hs He Hd).
  unfold valid_year_month in *. rewrite !date_le_month_index by tauto.
  unfold ym_le, month_index in *. cbn [fst snd] in *.
  f_equal. apply andb_false_iff.
  destruct (Z.leb_spec (sy * 12 + (sm - 1)) (y * 12 + (m - 1)));
    [right; apply Z.leb_gt; lia|left; reflexivity].
Qed.

(** X2. On calendar (year, month) arguments, [check_date_in_range]
    is true exactly when start <= date <= end as (year, month) pairs,
    the year compared first; so with the end before the start it is
    false for every date. *)
Theorem check_date_in_range_pair_order :
  forall sy sm ey em y m : Z,
    valid_year_month sy sm -> valid_year_month ey em -> valid_year_month y m ->
    (check_date_in_range (Some (PInt sy, PInt sm)) (Some (PInt ey, PInt em))
       (PInt y, PInt m) = Ok true
     <-> ym_le (sy, sm) (y, m) /\ ym_le (y, m) (ey, em))
    /\ (~ ym_le (sy, sm) (ey, em) ->
        check_date_in_range (Some (PInt sy, PInt sm)) (Some (PInt ey, PInt em))
          (PInt y, PInt m) = Ok false).
Proof.
  intros sy sm ey em y m Hs He Hd. split.
  - apply check_date_in_range_lex; assumption.
  - apply check_date_in_range_inverted; assumption.
Qed.

Lemma check_date_in_range_pair_order_witness :
  valid_year_month 2003 11 /\ valid_year_month 2004 2
  /\ valid_year_month 2004 1
  /\ (check_date_in_range (Some (PInt 2003, PInt 11)) (Some (PInt 2004, PInt 2))
        (PInt 2004, PInt 1) = Ok true
      <-> ym_le (2003, 11) (2004, 1) /\ ym_le (2004, 1) (2004, 2))
  /\ (~ ym_le (2003, 11) (2004, 2) ->
      check_date_in_range (Some (PInt 2003, PInt 11)) (Some (PInt 2004, PInt 2))
        (PInt 2004, PInt 1) = Ok false).
Proof.
  assert (H1 : valid_year_month 2003 11)
    by (unfold valid_year_month, datetime.MINYEAR, datetime.MAXYEAR; lia).
  assert (H2 : valid_year_month 2004 2)
    by (unfold valid_year_month, datetime.MINYEAR, datetime.MAXYEAR; lia).
  assert (H3 : valid_year_month 2004 1)
    by (unfold valid_year_month, datetime.MINYEAR, datetime.MAXYEAR; lia).
  split; [exact H1|]. split; [exact H2|]. split; [exact H3|].
  exact (check_date_in_range_pair_order 2003 11 2004 2 2004 1 H1 H2 H3).
Defined.

(** ** Raw mode *)

Lemma filterM_Ok_all {X : Type} (p : X -> result bool) (xs sel : list X) :
  filterM p xs = Ok sel ->
  (forall x, In x xs -> is_ok (p x) = true)
  /\ (forall x, In x sel -> In x xs /\ p x = Ok true).
Proof.
  revert sel. induction xs as [|x xs IH]; intros sel H; simpl in H.
  - inversion H; subst. split; intros ? [].
  - destruct (p x) as [bx|] eqn:E; cbn [bind] in H; [|discriminate].
    destruct (filterM p xs) as [sel'|]; cbn [bind] in H; [|discriminate].
    destruct (IH sel' eq_refl) as [IH1 IH2]. inversion H; subst. split.
    + intros x' [<-|Hin]; [rewrite E; reflexivity|auto].
    + intros x' Hin. destruct bx.
      * destruct Hin as [<-|Hin]; [split; [left; reflexivity|exact E]|].
        destruct (IH2 _ Hin). split; [right|]; assumption.
      * destruct (IH2 _ Hin). split; [right|]; assumption.
Qed.

(** X3. Raw mode is all or nothing: when the date test raises on one
    row, wherever it is among the rows (a year or month cell that is
    missing, is not an integer, or is not a calendar date, as a month
    13), the whole call raises and no store is returned. *)
Theorem raw_mode_bad_date_row :
  forall (S : Type) (ops : CrimeDataOps S) (rows : list row)
         (cc cy cm cn : Z) (cocc : option Z) (a b : option pytuple) (r : row),
    In r rows ->
    is_ok (row_in_range a b cy cm r) = false ->
    is_ok (build_crime_data_class (S := S) rows cc cy cm cn false cocc a b)
    = false.
Proof.
  intros S ops rows cc cy cm cn cocc a b r Hin Hr.
  unfold build_crime_data_class. cbn [negb]. apply is_ok_false_bind.
  match goal with |- is_ok ?c = false => destruct c as [s|] eqn:El end;
    [|reflexivity].
  apply (raw_loop_calls cc cy cm cn a b) in El as (sel & incs & H1 & _).
  apply filterM_Ok_all in H1 as [H1 _]. rewrite (H1 r Hin) in Hr. discriminate.
Qed.

Lemma raw_mode_bad_date_row_witness :
  In [PStr "Theft"; PInt 2003; PInt 13; PStr "X"]
     (example_rows ++ [[PStr "Theft"; PInt 2003; PInt 13; PStr "X"]])
  /\ is_ok (row_in_range (Some (PInt 2003, PInt 1)) (Some (PInt 2003, PInt 3))
              1 2 [PStr "Theft"; PInt 2003; PInt 13; PStr "X"]) = false
  /\ is_ok (build_crime_data_class (S := CrimeData)
              (example_rows ++ [[PStr "Theft"; PInt 2003; PInt 13; PStr "X"]])
              0 1 2 3 false None
              (Some (PInt 2003, PInt 1)) (Some (PInt 2003, PInt 3))) = false.
Proof.
  assert (H1 : In [PStr "Theft"; PInt 2003; PInt 13; PStr "X"]
                 (example_rows ++ [[PStr "Theft"; PInt 2003; PInt 13; PStr "X"]])).
  { apply in_or_app. right. left. reflexivity. }
  assert (H2 : is_ok (row_in_range (Some (PInt 2003, PInt 1))
                        (Some (PInt 2003, PInt 3)) 1 2
                        [PStr "Theft"; PInt 2003; PInt 13; PStr "X"]) = false)
    by reflexivity.
  split; [exact H1|]. split; [exact H2|].
  exact (raw_mode_bad_date_row CrimeData CrimeData_ops _ 0 1 2 3 None _ _ _ H1 H2).
Defined.

(** X4. Raw mode never stores a date outside the range: in every
    increment it makes, the year and month are integers that form a
    calendar (year, month), and [check_date_in_range] with the caller's
    range is true of them. *)
Theorem raw_mode_increments_in_range :
  forall (rows : list row) (cc cy cm cn : Z) (a b : option pytuple)
         (calls : list call) (crime nbhd y m v : pyval),
    raw_calls cc cy cm cn a b rows = Ok calls ->
    In (CallIncrementCrime crime nbhd y m v) calls ->
    check_date_in_range a b (y, m) = Ok true /\ calendar_pair (y, m).
Proof.
  intros rows cc cy cm cn a b calls crime nbhd y m v H Hin.
  unfold raw_calls in H.
  destruct (filterM _ rows) as [sel|] eqn:Ef; cbn [bind] in H; [|discriminate].
  destruct (mapM _ sel) as [incs|] eqn:Em; cbn [bind] in H; [|discriminate].
  inversion H; subst.
  apply in_app_or in Hin as [Hin|[Hin|Hin]]; [|discriminate|destruct Hin].
  apply filterM_Ok_all in Ef as [_ Hsel].
  pose proof (row_increment_calls cc cy cm cn _ _ _ Em) as HF.
  assert (Hc : check_date_in_range a b (y, m) = Ok true).
  { clear Em H. induction HF as [|r c sel incs Hrc HF IH]; [destruct Hin|].
    destruct Hin as [->|Hin].
    - destruct Hrc as (c1 & n1 & y1 & m1 & v1 & _ & _ & Hy & Hm & _ & Heq).
      inversion Heq; subst.
      destruct (Hsel r (or_introl eq_refl)) as [_ Hr].
      unfold row_in_range in Hr. rewrite Hy, Hm in Hr. exact Hr.
    - apply IH; [intros x Hx; apply Hsel; right; exact Hx|exact Hin]. }
  split; [exact Hc|].
  unfold check_date_in_range in Hc.
  destruct (subscript0 a); cbn [bind] in Hc; [|discriminate].
  destruct (subscript1 a); cbn [bind] in Hc; [|discriminate].
  destruct (datetime.date_new _ _ _); cbn [bind] in Hc; [|discriminate].
  destruct (subscript0 b); cbn [bind] in Hc; [|discriminate].
  destruct (subscript1 b); cbn [bind] in Hc; [|discriminate].
  destruct (datetime.date_new _ _ _); cbn [bind] in Hc; [|discriminate].
  cbn [fst snd] in Hc.
  destruct (datetime.date_new y m (PInt 1)) as [dd|] eqn:Ed; [|discriminate].
  exact (date_new_Ok_calendar y m dd Ed).
Qed.

Lemma raw_mode_increments_in_range_witness :
  check_date_in_range (Some (PInt 2003, PInt 1)) (Some (PInt 2003, PInt 3))
    (PInt 2003, PInt 3) = Ok true
  /\ calendar_pair (PInt 2003, PInt 3).
Proof.
  apply (raw_mode_increments_in_range example_rows 0 1 2 3
           (Some (PInt 2003, PInt 1)) (Some (PInt 2003, PInt 3))
           [CallIncrementCrime (PStr "Theft") (PStr "X") (PInt 2003) (PInt 1) (PInt 1);
            CallIncrementCrime (PStr "Theft") (PStr "X") (PInt 2003) (PInt 1) (PInt 1);
            CallIncrementCrime (PStr "Theft") (PStr "X") (PInt 2003) (PInt 3) (PInt 1);
            CallFillGaps (Some (PInt 2003, PInt 1)) (Some (PInt 2003, PInt 3))]
           (PStr "Theft") (PStr "X") (PInt 2003) (PInt 3) (PInt 1)).
  - reflexivity.
  - right. right. left. reflexivity.
Defined.

(** X5. Raw mode needs its range: when there is a row whose year and
    month cells can be read, a start left at [None], or an end left at
    [None] beside a calendar start, makes the call raise [TypeError]
    at the first row. *)
Theorem raw_mode_without_range :
  forall (S : Type) (ops : CrimeDataOps S) (r : row) (rows : list row)
         (cc cy cm cn : Z) (cocc : option Z) (a b : option pytuple),
    is_ok (row_getitem r cy) = true ->
    is_ok (row_getitem r cm) = true ->
    a = None \/ (exists s, a = Some s /\ calendar_pair s /\ b = None) ->
    build_crime_data_class (S := S) (r :: rows) cc cy cm cn false cocc a b
    = Raise TypeError.
Proof.
  intros S ops r rows cc cy cm cn cocc a b Hy Hm Hab.
  unfold build_crime_data_class. cbn [negb for_each].
  destruct (row_getitem r cy) as [y|]; [|discriminate].
  destruct (row_getitem r cm) as [m|]; [|discriminate]. cbn [bind].
  assert (Hc : check_date_in_range a b (y, m) = Raise TypeError).
  { destruct Hab as [->|(s & -> & Hs & ->)]; [reflexivity|].
    destruct (date_new_calendar s Hs) as (? & ? & _ & _ & _ & Es).
    unfold check_date_in_range. destruct s as [sy sm].
    cbn [subscript0 subscript1 bind fst snd] in *. rewrite Es. reflexivity. }
  rewrite Hc. reflexivity.
Qed.

Lemma raw_mode_without_range_witness :
  build_crime_data_class (S := CrimeData)
    ([PStr "Theft"; PInt 2003; PInt 1; PStr "X"] :: example_rows)
    0 1 2 3 false None None None
  = Raise TypeError.
Proof.
  apply (raw_mode_without_range CrimeData CrimeData_ops).
  - reflexivity.
  - reflexivity.
  - left. reflexivity.
Defined.

Section RawLoop.
Context {S : Type} {ops : CrimeDataOps S}.
Variables (cc cy cm cn : Z) (cocc : option Z) (a b : option pytuple).

Lemma build_raw_steps (rows : list row) :
  build_crime_data_class rows cc cy cm cn false cocc a b
  = (s <- for_each rows (raw_step cc cy cm cn a b) CrimeData_new ;;
     fill_gaps s a b).
Proof. reflexivity. Qed.

Lemma raw_step_not_selected (r : row) (s : S) :
  row_in_range a b cy cm r = Ok false -> raw_step cc cy cm cn a b r s = Ok s.
Proof.
  unfold row_in_range, raw_step. intros H.
  destruct (row_getitem r cy) as [y|]; [|discriminate].
  destruct (row_getitem r cm) as [m|]; [|discriminate]. cbn [bind] in *.
  rewrite H. reflexivity.
Qed.

(** Rows that fail the date test leave the loop of raw mode as it is
    without them, when the test raises on no row. *)
Lemma raw_loop_selected (rows : list row) (s0 : S) :
  (forall r, In r rows -> is_ok (row_in_range a b cy cm r) = true) ->
  for_each rows (raw_step cc cy cm cn a b) s0
  = for_each (filter (row_selected a b cy cm) rows) (raw_step cc cy cm cn a b) s0.
Proof.
  revert s0. induction rows as [|r rows IH]; intros s0 H; [reflexivity|].
  assert (Hr : is_ok (row_in_range a b cy cm r) = true)
    by (apply H; left; reflexivity).
  assert (IH' : forall s,
            for_each rows (raw_step cc cy cm cn a b) s
            = for_each (filter (row_selected a b cy cm) rows)
                (raw_step cc cy cm cn a b) s)
    by (intros s; apply IH; intros r' Hr'; apply H; right; exact Hr').
  cbn [filter for_each]. unfold row_selected at 1.
  destruct (row_in_range a b cy cm r) as [[|]|] eqn:Er; [| |discriminate].
  - cbn [for_each]. destruct (raw_step cc cy cm cn a b r s0); cbn [bind];
      [apply IH'|reflexivity].
  - rewrite (raw_step_not_selected r s0 Er). cbn [bind]. apply IH'.
Qed.

Lemma raw_loop_none_selected (rows : list row) (s0 : S) :
  (forall r, In r rows -> row_in_range a b cy cm r = Ok false) ->
  for_each rows (raw_step cc cy cm cn a b) s0 = Ok s0.
Proof.
  induction rows as [|r rows IH]; intros H; [reflexivity|].
  cbn [for_each]. rewrite (raw_step_not_selected r s0)
    by (apply H; left; reflexivity).
  cbn [bind]. apply IH. intros r' Hr'. apply H. right. exact Hr'.
Qed.

End RawLoop.

(** X6. Rows outside the range do not matter in raw mode: when the
    date test raises on no row, the call gives what it gives on the
    rows that pass the test alone, the same store or the same
    exception. *)
Theorem raw_mode_drops_rows_outside :
  forall (S : Type) (ops : CrimeDataOps S) (rows : list row)
         (cc cy cm cn : Z) (cocc : option Z) (a b : option pytuple),
    (forall r, In r rows -> is_ok (row_in_range a b cy cm r) = true) ->
    build_crime_data_class (S := S) rows cc cy cm cn false cocc a b
    = build_crime_data_class (filter (row_selected a b cy cm) rows)
        cc cy cm cn false cocc a b.
Proof.
  intros S ops rows cc cy cm cn cocc a b H.
  rewrite !build_raw_steps, (raw_loop_selected cc cy cm cn a b rows _ H).
  reflexivity.
Qed.

Lemma raw_mode_drops_rows_outside_witness :
  build_crime_data_class (S := CrimeData)
    ([PStr "Theft"; PInt 2002; PInt 12; PStr "X"] :: example_rows)
    0 1 2 3 false None (Some (PInt 2003, PInt 1)) (Some (PInt 2003, PInt 3))
  = build_crime_data_class
      (filter (row_selected (Some (PInt 2003, PInt 1)) (Some (PInt 2003, PInt 3))
                 1 2)
         ([PStr "Theft"; PInt 2002; PInt 12; PStr "X"] :: example_rows))
      0 1 2 3 false None (Some (PInt 2003, PInt 1)) (Some (PInt 2003, PInt 3)).
Proof.
  apply (raw_mode_drops_rows_outside CrimeData CrimeData_ops).
  intros r Hr. cbn [In example_rows] in Hr.
  repeat (destruct Hr as [<-|Hr]; [reflexivity|]). destruct Hr.
Defined.

(** X7. With the end of the range before its start, raw mode ingests
    nothing: rows whose year and month cells are calendar integers
    all fail the test, and the result is [fill_gaps] on the new
    store. *)
Theorem raw_mode_inverted_range :
  forall (S : Type) (ops : CrimeDataOps S) (rows : list row)
         (cc cy cm cn : Z) (cocc : option Z) (sy sm ey em : Z),
    valid_year_month sy sm -> valid_year_month ey em ->
    ~ ym_le (sy, sm) (ey, em) ->
    (forall r, In r rows ->
       exists y m, row_getitem r cy = Ok (PInt y)
                   /\ row_getitem r cm = Ok (PInt m) /\ valid_year_month y m) ->
    build_crime_data_class (S := S) rows cc cy cm cn false cocc
      (Some (PInt sy, PInt sm)) (Some (PInt ey, PInt em))
    = fill_gaps CrimeData_new
        (Some (PInt sy, PInt sm)) (Some (PInt ey, PInt em)).
Proof.
  intros S ops rows cc cy cm cn cocc sy sm ey em Hs He Hinv Hrows.
  rewrite build_raw_steps, raw_loop_none_selected; [reflexivity|].
  intros r Hr. destruct (Hrows r Hr) as (y & m & Hy & Hm & Hv).
  unfold row_in_range. rewrite Hy, Hm. cbn [bind].
  apply check_date_in_range_inverted; assumption.
Qed.

Lemma raw_mode_inverted_range_witness :
  build_crime_data_class (S := CrimeData) example_rows 0 1 2 3 false None
    (Some (PInt 2003, PInt 3)) (Some (PInt 2003, PInt 1))
  = fill_gaps CrimeData_new (Some (PInt 2003, PInt 3)) (Some (PInt 2003, PInt 1)).
Proof.
  apply (raw_mode_inverted_range CrimeData CrimeData_ops example_rows 0 1 2 3 None
           2003 3 2003 1).
  - unfold valid_year_month, datetime.MINYEAR, datetime.MAXYEAR. lia.
  - unfold valid_year_month, datetime.MINYEAR, datetime.MAXYEAR. lia.
  - unfold ym_le. cbn [fst snd]. lia.
  - intros r Hr. cbn [In example_rows] in Hr.
    assert (Hv1 : valid_year_month 2003 1)
      by (unfold valid_year_month, datetime.MINYEAR, datetime.MAXYEAR; lia).
    assert (Hv3 : valid_year_month 2003 3)
      by (unfold valid_year_month, datetime.MINYEAR, datetime.MAXYEAR; lia).
    destruct Hr as [<-|[<-|[<-|[]]]].
    + exists 2003, 1. repeat split; apply Hv1.
    + exists 2003, 1. repeat split; apply Hv1.
    + exists 2003, 3. repeat split; apply Hv3.
Defined.

(** ** Export *)

Lemma conforming_columns (rs : list record) :
  Forall (fun r => conforming r = true) rs ->
  Forall (fun v => isinstance_str v = true) (crime_type (fd_of_records rs))
  /\ Forall (fun v => isinstance_str v = true) (neighbourhood (fd_of_records rs))
  /\ Forall (fun v => isinstance_int v = true) (year (fd_of_records rs))
  /\ Forall (fun v => isinstance_int v = true) (month (fd_of_records rs))
  /\ Forall (fun v => isinstance_int v = true) (count (fd_of_records rs)).
Proof.
  unfold fd_of_records. cbn [crime_type neighbourhood year month count].
  induction 1 as [|[[[[c n] y] m] v] rs Hr _ IH]; cbn [map fst snd].
  - repeat split; constructor.
  - unfold conforming in Hr.
    apply andb_true_iff in Hr as [Hr Hv]. apply andb_true_iff in Hr as [Hr Hm].
    apply andb_true_iff in Hr as [Hr Hy]. apply andb_true_iff in Hr as [Hc Hn].
    destruct IH as (I1 & I2 & I3 & I4 & I5).
    repeat split; constructor; assumption.
Qed.

(** X8. The five columns [create_csv] builds all have one cell for
    each leaf of the shape (str, str, int, int, int) and no other: they
    have the same length, as a data frame needs. *)
Theorem create_csv_columns_aligned :
  forall cd : CrimeData,
    store_wf cd = true ->
    exists fd,
      create_csv cd = Ok fd
      /\ List.length (crime_type fd) = List.length (filter conforming (leaves cd))
      /\ List.length (neighbourhood fd) = List.length (crime_type fd)
      /\ List.length (year fd) = List.length (crime_type fd)
      /\ List.length (month fd) = List.length (crime_type fd)
      /\ List.length (count fd) = List.length (crime_type fd).
Proof.
  intros cd Hwf. eexists. split; [apply create_csv_records, Hwf|].
  unfold fd_of_records. cbn [crime_type neighbourhood year month count].
  rewrite !length_map. repeat split; reflexivity.
Qed.

Lemma create_csv_columns_aligned_witness :
  exists fd,
    create_csv example_store = Ok fd
    /\ List.length (crime_type fd)
       = List.length (filter conforming (leaves example_store))
    /\ List.length (neighbourhood fd) = List.length (crime_type fd)
    /\ List.length (year fd) = List.length (crime_type fd)
    /\ List.length (month fd) = List.length (crime_type fd)
    /\ List.length (count fd) = List.length (crime_type fd).
Proof.
  apply (create_csv_columns_aligned example_store). reflexivity.
Defined.

(** X9. The columns [create_csv] builds are typed: every cell of
    [crime_type] and [neighbourhood] is a [str], every cell of [year],
    [month] and [count] an [int], whatever the store holds. *)
Theorem create_csv_columns_typed :
  forall cd : CrimeData,
    store_wf cd = true ->
    exists fd,
      create_csv cd = Ok fd
      /\ Forall (fun v => isinstance_str v = true) (crime_type fd)
      /\ Forall (fun v => isinstance_str v = true) (neighbourhood fd)
      /\ Forall (fun v => isinstance_int v = true) (year fd)
      /\ Forall (fun v => isinstance_int v = true) (month fd)
      /\ Forall (fun v => isinstance_int v = true) (count fd).
Proof.
  intros cd Hwf. eexists. split; [apply create_csv_records, Hwf|].
  apply conforming_columns. apply Forall_forall. intros r Hr.
  apply filter_In in Hr. apply Hr.
Qed.

Lemma create_csv_columns_typed_witness :
  exists fd,
    create_csv example_store = Ok fd
    /\ Forall (fun v => isinstance_str v = true) (crime_type fd)
    /\ Forall (fun v => isinstance_str v = true) (neighbourhood fd)
    /\ Forall (fun v => isinstance_int v = true) (year fd)
    /\ Forall (fun v => isinstance_int v = true) (month fd)
    /\ Forall (fun v => isinstance_int v = true) (count fd).
Proof.
  apply (create_csv_columns_typed example_store). reflexivity.
Defined.

(** ** Export, then [get_vancouver_data] *)




(** ** The pipeline on the store *)

Lemma lookup_series_equiv (cd : CrimeData) (c n c' n' : pyval) :
  py_eqb c c' = true -> py_eqb n n' = true ->
  lookup_series cd c n = lookup_series cd c' n'.
Proof.
  intros Hc Hn. unfold lookup_series.
  rewrite (dict_get_equiv _ c c' Hc).
  destruct (dict_get (crime_occurrences cd) c'); [|reflexivity].
  apply dict_get_equiv, Hn.
Qed.

Lemma lookup_count_equiv (cd : CrimeData) (c n y m c' n' y' m' : pyval) :
  py_eqb c c' && py_eqb n n' && py_eqb y y' && py_eqb m m' = true ->
  lookup_count cd c n y m = lookup_count cd c' n' y' m'.
Proof.
  intros H. apply andb_true_iff in H as [H Hm]. apply andb_true_iff in H as [H Hy].
  apply andb_true_iff in H as [Hc Hn].
  unfold lookup_count. rewrite (lookup_series_equiv cd c n c' n' Hc Hn).
  destruct (lookup_series cd c' n') as [nco|]; [|reflexivity].
  unfold series_count, occ_count. rewrite (dict_get_equiv _ y y' Hy).
  destruct (dict_get (occurrences nco) y'); [|reflexivity].
  apply dict_get_equiv, Hm.
Qed.

Lemma total_at_none (c n y m : pyval) (calls : list call) :
  existsb (call_at c n y m) calls = false -> total_at c n y m calls = 0.
Proof.
  unfold total_at. induction calls as [|cl calls IH]; [reflexivity|].
  cbn [existsb filter]. intros H. apply orb_false_iff in H as [H1 H2].
  rewrite H1. apply IH, H2.
Qed.

Lemma total_at_cons (c n y m : pyval) (cl : call) (calls : list call) :
  total_at c n y m (cl :: calls)
  = (if call_at c n y m cl then call_amount_z cl else 0) + total_at c n y m calls.
Proof.
  unfold total_at. cbn [filter]. destruct (call_at c n y m cl); reflexivity.
Qed.

Lemma is_some_lookup_series_put (cd : CrimeData) (c n y m v c' n' : pyval) :
  is_some (lookup_series (store_put cd c n y m v) c' n')
  = (py_eqb c' c && py_eqb n' n) || is_some (lookup_series cd c' n').
Proof.
  rewrite lookup_series_put. destruct (py_eqb c' c && py_eqb n' n); reflexivity.
Qed.

(** Integer increments, run from a store of integer counts, all
    return; the count at a key path grows by the sum of the amounts of
    the calls at it, the other counts stay, and a series is there when
    it was or when a call is in it. *)
Lemma run_increments (calls : list call) :
  forall cd0 : CrimeData,
    Forall integer_increment calls -> int_counts cd0 -> store_wf cd0 = true ->
    exists cd,
      run_calls calls cd0 = Ok cd
      /\ int_counts cd /\ store_wf cd = true
      /\ (forall c n y m,
            lookup_count cd c n y m
            = if existsb (call_at c n y m) calls
              then Some (PInt (count_z cd0 c n y m + total_at c n y m calls))
              else lookup_count cd0 c n y m)
      /\ (forall c n,
            is_some (lookup_series cd c n)
            = existsb (call_on_series c n) calls
              || is_some (lookup_series cd0 c n)).
Proof.
  induction calls as [|cl calls IH]; intros cd0 Hcalls Hint Hwf.
  - exists cd0. repeat split; try assumption; reflexivity.
  - inversion Hcalls as [|? ? Hcl Hrest]; subst.
    destruct Hcl as (c1 & n1 & y1 & m1 & a1 & ->).
    assert (H0 : count_or_zero cd0 c1 n1 y1 m1 = PInt (count_z cd0 c1 n1 y1 m1)).
    { unfold count_z, count_or_zero.
      destruct (lookup_count cd0 c1 n1 y1 m1) as [v|] eqn:E; [|reflexivity].
      destruct (Hint _ _ _ _ _ E) as (z & ->). reflexivity. }
    set (cd1 := store_put cd0 c1 n1 y1 m1
                  (PInt (count_z cd0 c1 n1 y1 m1 + a1))).
    assert (Hint1 : int_counts cd1).
    { intros c n y m v. unfold cd1. rewrite lookup_count_put.
      destruct (_ && _); [|apply Hint].
      intros H. inversion H. eexists. reflexivity. }
    destruct (IH cd1 Hrest Hint1 (store_wf_put _ _ _ _ _ _ Hwf))
      as (cd & Hrun & Hint' & Hwf' & Hcount & Hseries).
    exists cd. split; [|split; [exact Hint'|split; [exact Hwf'|split]]].
    + unfold run_calls in *. cbn [for_each run_call increment_crime CrimeData_ops].
      rewrite increment_crime_put, H0. cbn [py_add as_number bind]. exact Hrun.
    + intros c n y m. rewrite Hcount. cbn [existsb call_at].
      rewrite total_at_cons. cbn [call_at call_amount_z].
      unfold cd1 at 2. rewrite lookup_count_put.
      assert (Hz : count_z cd1 c n y m
                   = if py_eqb c c1 && py_eqb n n1 && py_eqb y y1 && py_eqb m m1
                     then count_z cd0 c1 n1 y1 m1 + a1
                     else count_z cd0 c n y m).
      { unfold count_z at 1, count_or_zero, cd1. rewrite lookup_count_put.
        destruct (_ && _); reflexivity. }
      rewrite Hz.
      destruct (py_eqb c c1 && py_eqb n n1 && py_eqb y y1 && py_eqb m m1) eqn:E;
        cbn [orb].
      * assert (Hk : count_z cd0 c n y m = count_z cd0 c1 n1 y1 m1).
        { unfold count_z, count_or_zero.
          rewrite (lookup_count_equiv cd0 _ _ _ _ _ _ _ _ E). reflexivity. }
        destruct (existsb (call_at c n y m) calls) eqn:Ex.
        -- do 2 f_equal. lia.
        -- rewrite (total_at_none _ _ _ _ _ Ex). do 2 f_equal. lia.
      * destruct (existsb (call_at c n y m) calls); [|reflexivity].
        do 2 f_equal.
    + intros c n. rewrite Hseries. unfold cd1.
      rewrite is_some_lookup_series_put. cbn [existsb call_on_series].
      rewrite orb_assoc.
      rewrite (orb_comm (existsb (call_on_series c n) calls)). reflexivity.
Qed.

Section RawCounts.
Variables (cc cy cm cn : Z) (a b : option pytuple).

(** The increments of raw mode, counted on the rows. *)
Lemma raw_increments_rows (rows : list row) :
  forall (sel : list row) (incs : list call),
    filterM (row_in_range a b cy cm) rows = Ok sel ->
    mapM (row_increment cc cy cm cn (fun _ => Ok (PInt 1))) sel = Ok incs ->
    Forall integer_increment incs
    /\ (forall c n y m,
          existsb (call_at c n y m) incs
          = existsb (row_at cc cy cm cn a b c n y m) rows
          /\ total_at c n y m incs
             = Z.of_nat
                 (List.length (filter (row_at cc cy cm cn a b c n y m) rows)))
    /\ (forall c n,
          existsb (call_on_series c n) incs
          = existsb (row_on_series cc cy cm cn a b c n) rows).
Proof.
  induction rows as [|r rows IH]; intros sel incs H1 H2.
  - inversion H1; subst. inversion H2; subst.
    split; [constructor|]. split; [intros; split; reflexivity|reflexivity].
  - cbn [filterM] in H1.
    destruct (row_in_range a b cy cm r) as [inr|] eqn:Er; cbn [bind] in H1;
      [|discriminate].
    destruct (filterM _ rows) as [sel'|] eqn:Ef; cbn [bind] in H1; [|discriminate].
    inversion H1; subst. destruct inr.
    + cbn [mapM] in H2. unfold row_increment at 1 in H2.
      destruct (row_getitem r cc) as [c0|] eqn:Ecc; cbn [bind] in H2;
        [|discriminate].
      destruct (row_getitem r cn) as [n0|] eqn:Ecn; cbn [bind] in H2;
        [|discriminate].
      destruct (row_getitem r cy) as [y0|] eqn:Ecy; cbn [bind] in H2;
        [|discriminate].
      destruct (row_getitem r cm) as [m0|] eqn:Ecm; cbn [bind] in H2;
        [|discriminate].
      destruct (mapM _ sel') as [incs'|] eqn:Emap; cbn [bind] in H2;
        [|discriminate].
      inversion H2; subst.
      destruct (IH sel' incs' eq_refl Emap) as (I1 & I2 & I3).
      assert (Hat : forall c n y m,
                row_at cc cy cm cn a b c n y m r
                = py_eqb c c0 && py_eqb n n0 && py_eqb y y0 && py_eqb m m0).
      { intros. unfold row_at, row_selected, cell_is.
        rewrite Er, Ecc, Ecn, Ecy, Ecm. reflexivity. }
      assert (Hon : forall c n,
                row_on_series cc cy cm cn a b c n r = py_eqb c c0 && py_eqb n n0).
      { intros. unfold row_on_series, row_selected, cell_is.
        rewrite Er, Ecc, Ecn. reflexivity. }
      split; [constructor; [exists c0, n0, y0, m0, 1; reflexivity|exact I1]|].
      split.
      * intros c n y m. destruct (I2 c n y m) as [E1 E2].
        cbn [existsb filter call_at]. rewrite total_at_cons, Hat, E1, E2.
        cbn [call_at call_amount_z]. split; [reflexivity|].
        destruct (_ && _); cbn [List.length]; lia.
      * intros c n. cbn [existsb call_on_series]. rewrite Hon, I3. reflexivity.
    + destruct (IH sel' incs eq_refl H2) as (I1 & I2 & I3).
      assert (Hat : forall c n y m, row_at cc cy cm cn a b c n y m r = false).
      { intros. unfold row_at, row_selected. rewrite Er. reflexivity. }
      assert (Hon : forall c n, row_on_series cc cy cm cn a b c n r = false).
      { intros. unfold row_on_series, row_selected. rewrite Er. reflexivity. }
      split; [exact I1|]. split.
      * intros c n y m. cbn [existsb filter]. rewrite Hat. apply I2.
      * intros c n. cbn [existsb]. rewrite Hon. apply I3.
Qed.

End RawCounts.

Lemma int_counts_new : int_counts CrimeDataImpl.new.
Proof. intros c n y m v H. discriminate. Qed.

(** The store raw mode builds, when every cell and date can be used. *)
Lemma raw_build_store :
  forall (rows : list row) (cc cy cm cn : Z) (cocc : option Z)
         (sy sm ey em : Z) (calls : list call),
    raw_calls cc cy cm cn (Some (PInt sy, PInt sm)) (Some (PInt ey, PInt em)) rows
    = Ok calls ->
    exists cd : CrimeData,
      build_crime_data_class rows cc cy cm cn false cocc
        (Some (PInt sy, PInt sm)) (Some (PInt ey, PInt em)) = Ok cd
      /\ store_wf cd = true
      /\ forall c n y m,
           lookup_count cd c n y m
           = if existsb (row_at cc cy cm cn (Some (PInt sy, PInt sm))
                           (Some (PInt ey, PInt em)) c n y m) rows
             then Some (PInt (Z.of_nat (List.length
                    (filter (row_at cc cy cm cn (Some (PInt sy, PInt sm))
                               (Some (PInt ey, PInt em)) c n y m) rows))))
             else if existsb (row_on_series cc cy cm cn (Some (PInt sy, PInt sm))
                                (Some (PInt ey, PInt em)) c n) rows
                     && in_months (months_in_range (sy, sm) (ey, em)) y m
                  then Some (PInt 0)
                  else None.
Proof.
  intros rows cc cy cm cn cocc sy sm ey em calls H.
  set (a := Some (PInt sy, PInt sm)) in *. set (b := Some (PInt ey, PInt em)) in *.
  unfold raw_calls in H.
  destruct (filterM _ rows) as [sel|] eqn:Ef; cbn [bind] in H; [|discriminate].
  destruct (mapM _ sel) as [incs|] eqn:Em; cbn [bind] in H; [|discriminate].
  destruct (raw_increments_rows cc cy cm cn a b rows sel incs Ef Em)
    as (Hint & Hat & Hon).
  destruct (run_increments incs CrimeDataImpl.new Hint int_counts_new eq_refl)
    as (cd1 & Hrun & _ & Hwf1 & Hcount & Hseries).
  unfold build_crime_data_class. cbn [negb].
  rewrite (raw_loop_run cc cy cm cn a b rows sel incs _ Ef Em).
  change (@CrimeData_new CrimeData CrimeData_ops) with CrimeDataImpl.new.
  rewrite Hrun. cbn [bind fill_gaps CrimeData_ops]. unfold a, b.
  rewrite fill_gaps_int. eexists. split; [reflexivity|].
  split; [apply store_wf_fill, Hwf1|].
  intros c n y m. rewrite lookup_count_fill.
  specialize (Hcount c n y m). specialize (Hseries c n).
  destruct (Hat c n y m) as [E1 E2]. rewrite E1, E2 in Hcount.
  rewrite (Hon c n) in Hseries. fold a b.
  unfold lookup_count in Hcount.
  destruct (lookup_series cd1 c n) as [nco|]; cbn [is_some] in Hseries.
  - rewrite Hcount.
    destruct (existsb (row_at cc cy cm cn a b c n y m) rows).
    + unfold count_z, count_or_zero. cbn. reflexivity.
    + cbn [lookup_count lookup_series CrimeDataImpl.new crime_occurrences dict_get].
      rewrite orb_false_r in Hseries. rewrite <- Hseries. reflexivity.
  - rewrite orb_false_r in Hseries. rewrite <- Hseries. cbn [andb].
    destruct (existsb (row_at cc cy cm cn a b c n y m) rows);
      [discriminate|reflexivity].
Qed.

(** X11. Raw mode on the store as it is specified, when every cell
    and date can be used: the count at a key path is the number of
    rows of the range at that key path; where there is no such row,
    it is 0 if a row of the range is in the series and the month is a
    month of the range, and there is no entry otherwise. *)
Theorem raw_mode_counts :
  forall (rows : list row) (cc cy cm cn : Z) (cocc : option Z)
         (sy sm ey em : Z) (calls : list call),
    raw_calls cc cy cm cn (Some (PInt sy, PInt sm)) (Some (PInt ey, PInt em)) rows
    = Ok calls ->
    exists cd : CrimeData,
      build_crime_data_class rows cc cy cm cn false cocc
        (Some (PInt sy, PInt sm)) (Some (PInt ey, PInt em)) = Ok cd
      /\ forall c n y m,
           lookup_count cd c n y m
           = if existsb (row_at cc cy cm cn (Some (PInt sy, PInt sm))
                           (Some (PInt ey, PInt em)) c n y m) rows
             then Some (PInt (Z.of_nat (List.length
                    (filter (row_at cc cy cm cn (Some (PInt sy, PInt sm))
                               (Some (PInt ey, PInt em)) c n y m) rows))))
             else if existsb (row_on_series cc cy cm cn (Some (PInt sy, PInt sm))
                                (Some (PInt ey, PInt em)) c n) rows
                     && in_months (months_in_range (sy, sm) (ey, em)) y m
                  then Some (PInt 0)
                  else None.
Proof.
  intros rows cc cy cm cn cocc sy sm ey em calls H.
  destruct (raw_build_store rows cc cy cm cn cocc sy sm ey em calls H)
    as (cd & Hb & _ & Hc).
  exists cd. split; assumption.
Qed.

Lemma raw_mode_counts_witness :
  exists cd : CrimeData,
    build_crime_data_class example_rows 0 1 2 3 false None
      (Some (PInt 2003, PInt 1)) (Some (PInt 2003, PInt 3)) = Ok cd
    /\ forall c n y m,
         lookup_count cd c n y m
         = if existsb (row_at 0 1 2 3 (Some (PInt 2003, PInt 1))
                         (Some (PInt 2003, PInt 3)) c n y m) example_rows
           then Some (PInt (Z.of_nat (List.length
                  (filter (row_at 0 1 2 3 (Some (PInt 2003, PInt 1))
                             (Some (PInt 2003, PInt 3)) c n y m) example_rows))))
           else if existsb (row_on_series 0 1 2 3 (Some (PInt 2003, PInt 1))
                              (Some (PInt 2003, PInt 3)) c n) example_rows
                   && in_months (months_in_range (2003, 1) (2003, 3)) y m
                then Some (PInt 0)
                else None.
Proof.
  eapply (raw_mode_counts example_rows 0 1 2 3 None 2003 1 2003 3).
  reflexivity.
Defined.





Lemma filter_all {X : Type} (p : X -> bool) (l : list X) :
  (forall x, In x l -> p x = true) -> filter p l = l.
Proof.
  induction l as [|x l IH]; intros H; [reflexivity|].
  cbn [filter]. rewrite (H x) by (left; reflexivity).
  rewrite IH by (intros x' Hx'; apply H; right; exact Hx'). reflexivity.
Qed.



(** ** Processed mode *)

Lemma for_each_app {A X : Type} (xs ys : list X) (body : X -> A -> result A)
    (acc : A) :
  for_each (xs ++ ys) body acc
  = (acc' <- for_each xs body acc ;; for_each ys body acc').
Proof.
  revert acc. induction xs as [|x xs IH]; intros acc; [reflexivity|].
  cbn [app for_each]. destruct (body x acc); cbn [bind]; [apply IH|reflexivity].
Qed.

(** X13. Processed mode never falls back to a count of 1: with
    [col_num_occurrences] left at [None], the call raises [KeyError]
    at the first row, when the four key cells of that row can be
    read. *)
Theorem processed_mode_without_count_column :
  forall (S : Type) (ops : CrimeDataOps S) (r : row) (rows : list row)
         (cc cy cm cn : Z) (a b : option pytuple),
    is_ok (row_getitem r cc) = true -> is_ok (row_getitem r cn) = true ->
    is_ok (row_getitem r cy) = true -> is_ok (row_getitem r cm) = true ->
    build_crime_data_class (S := S) (r :: rows) cc cy cm cn true None a b
    = Raise KeyError.
Proof.
  intros S ops r rows cc cy cm cn a b H1 H2 H3 H4.
  unfold build_crime_data_class. cbn [negb for_each].
  destruct (row_getitem r cc); [|discriminate].
  destruct (row_getitem r cn); [|discriminate].
  destruct (row_getitem r cy); [|discriminate].
  destruct (row_getitem r cm); [|discriminate]. reflexivity.
Qed.

Lemma processed_mode_without_count_column_witness :
  build_crime_data_class (S := CrimeData)
    ([PStr "Theft"; PInt 2003; PInt 1; PStr "X"] :: example_rows)
    0 1 2 3 true None None None
  = Raise KeyError.
Proof.
  apply (processed_mode_without_count_column CrimeData CrimeData_ops);
    reflexivity.
Defined.

(** X14. Processed mode on rows put one after the other is
    processed mode on the first rows, then the increments of the
    later rows run on the store it returns. *)
Theorem processed_mode_append :
  forall (S : Type) (ops : CrimeDataOps S) (rows1 rows2 : list row)
         (cc cy cm cn : Z) (cocc : option Z) (a b : option pytuple)
         (calls2 : list call),
    processed_calls cc cy cm cn cocc rows2 = Ok calls2 ->
    build_crime_data_class (S := S) (rows1 ++ rows2) cc cy cm cn true cocc a b
    = (s <- build_crime_data_class rows1 cc cy cm cn true cocc a b ;;
       run_calls calls2 s).
Proof.
  intros S ops rows1 rows2 cc cy cm cn cocc a b calls2 H.
  unfold build_crime_data_class. cbn [negb]. rewrite for_each_app.
  match goal with |- bind ?c _ = _ => destruct c as [s1|]; cbn [bind] end;
    [|reflexivity].
  apply processed_loop_run, H.
Qed.

Lemma processed_mode_append_witness :
  build_crime_data_class (S := CrimeData)
    ([[PStr "Theft"; PStr "X"; PInt 2003; PInt 1; PInt 2]]
     ++ [[PStr "Theft"; PStr "X"; PInt 2003; PInt 1; PInt 5]])
    0 2 3 1 true (Some 4) None None
  = (s <- build_crime_data_class
            [[PStr "Theft"; PStr "X"; PInt 2003; PInt 1; PInt 2]]
            0 2 3 1 true (Some 4) None None ;;
     run_calls
       [CallIncrementCrime (PStr "Theft") (PStr "X") (PInt 2003) (PInt 1) (PInt 5)]
       s).
Proof.
  apply (processed_mode_append CrimeData CrimeData_ops). reflexivity.
Defined.

Section ProcessedCounts.
Variables (cc cy cm cn : Z) (cocc : option Z).

(** The increments of processed mode, counted on the rows. *)
Lemma processed_increments_rows (rows : list row) :
  forall calls : list call,
    processed_calls cc cy cm cn cocc rows = Ok calls ->
    (forall r, In r rows -> exists z, row_getitem_opt r cocc = Ok (PInt z)) ->
    Forall integer_increment calls
    /\ forall c n y m,
         existsb (call_at c n y m) calls
         = existsb (row_has_key cc cy cm cn c n y m) rows
         /\ total_at c n y m calls
            = sum_counts cocc (filter (row_has_key cc cy cm cn c n y m) rows).
Proof.
  unfold processed_calls.
  induction rows as [|r rows IH]; intros calls H Hz.
  - inversion H; subst. split; [constructor|]. intros; split; reflexivity.
  - cbn [mapM] in H. unfold row_increment at 1 in H.
    destruct (row_getitem r cc) as [c0|] eqn:Ecc; cbn [bind] in H; [|discriminate].
    destruct (row_getitem r cn) as [n0|] eqn:Ecn; cbn [bind] in H; [|discriminate].
    destruct (row_getitem r cy) as [y0|] eqn:Ecy; cbn [bind] in H; [|discriminate].
    destruct (row_getitem r cm) as [m0|] eqn:Ecm; cbn [bind] in H; [|discriminate].
    destruct (Hz r (or_introl eq_refl)) as (z & Ez). rewrite Ez in H.
    cbn [bind] in H.
    destruct (mapM _ rows) as [calls'|] eqn:Emap; cbn [bind] in H; [|discriminate].
    inversion H; subst.
    destruct (IH calls' eq_refl (fun r' Hr' => Hz r' (or_intror Hr')))
      as (I1 & I2).
    assert (Hat : forall c n y m,
              row_has_key cc cy cm cn c n y m r
              = py_eqb c c0 && py_eqb n n0 && py_eqb y y0 && py_eqb m m0).
    { intros. unfold row_has_key, cell_is. rewrite Ecc, Ecn, Ecy, Ecm.
      reflexivity. }
    split; [constructor; [exists c0, n0, y0, m0, z; reflexivity|exact I1]|].
    intros c n y m. destruct (I2 c n y m) as [E1 E2].
    cbn [existsb filter call_at]. rewrite total_at_cons, Hat, E1, E2.
    cbn [call_at call_amount_z]. split; [reflexivity|].
    assert (Hrz : row_count_z cocc r = z)
      by (unfold row_count_z; rewrite Ez; reflexivity).
    destruct (_ && _); [|reflexivity].
    change (sum_counts cocc
              (r :: filter (row_has_key cc cy cm cn c n y m) rows))
      with (row_count_z cocc r
            + sum_counts cocc (filter (row_has_key cc cy cm cn c n y m) rows)).
    rewrite Hrz. reflexivity.
Qed.

End ProcessedCounts.

(** X15. Processed mode on the store as it is specified, when every
    cell can be read and every count cell is an [int] that is no
    [bool]: the count at a key path is the sum of the count cells of
    the rows at that key path, whatever their dates, and a key path
    of no row has no entry. *)
Theorem processed_mode_counts :
  forall (rows : list row) (cc cy cm cn : Z) (cocc : option Z)
         (a b : option pytuple) (calls : list call),
    processed_calls cc cy cm cn cocc rows = Ok calls ->
    (forall r, In r rows -> exists z, row_getitem_opt r cocc = Ok (PInt z)) ->
    exists cd : CrimeData,
      build_crime_data_class rows cc cy cm cn true cocc a b = Ok cd
      /\ forall c n y m,
           lookup_count cd c n y m
           = if existsb (row_has_key cc cy cm cn c n y m) rows
             then Some (PInt (sum_counts cocc
                    (filter (row_has_key cc cy cm cn c n y m) rows)))
             else None.
Proof.
  intros rows cc cy cm cn cocc a b calls H Hz.
  destruct (processed_increments_rows cc cy cm cn cocc rows calls H Hz)
    as (Hint & Hat).
  destruct (run_increments calls CrimeDataImpl.new Hint int_counts_new eq_refl)
    as (cd & Hrun & _ & _ & Hcount & _).
  exists cd. split.
  - unfold build_crime_data_class. cbn [negb].
    rewrite (processed_loop_run cc cy cm cn cocc rows calls _ H). exact Hrun.
  - intros c n y m. rewrite Hcount. destruct (Hat c n y m) as [E1 E2].
    rewrite E1, E2. destruct (existsb _ rows); [|reflexivity].
    unfold count_z, count_or_zero. cbn. reflexivity.
Qed.

Lemma processed_mode_counts_witness :
  exists cd : CrimeData,
    build_crime_data_class
      [ [PStr "Theft"; PStr "X"; PInt 2003; PInt 1; PInt 2];
        [PStr "Theft"; PStr "X"; PInt 2003; PInt 1; PInt 5] ]
      0 2 3 1 true (Some 4) None None = Ok cd
    /\ forall c n y m,
         lookup_count cd c n y m
         = if existsb (row_has_key 0 2 3 1 c n y m)
                [ [PStr "Theft"; PStr "X"; PInt 2003; PInt 1; PInt 2];
                  [PStr "Theft"; PStr "X"; PInt 2003; PInt 1; PInt 5] ]
           then Some (PInt (sum_counts (Some 4)
                  (filter (row_has_key 0 2 3 1 c n y m)
                     [ [PStr "Theft"; PStr "X"; PInt 2003; PInt 1; PInt 2];
                       [PStr "Theft"; PStr "X"; PInt 2003; PInt 1; PInt 5] ])))
           else None.
Proof.
  eapply processed_mode_counts.
  - reflexivity.
  - intros r Hr. destruct Hr as [<-|[<-|[]]]; eexists; reflexivity.
Defined.

(** ** Raw mode, then export *)

Lemma as_number_int (v : pyval) (z : Z) :
  as_number v = PInt z -> isinstance_int v = true.
Proof. destruct v; cbn; congruence. Qed.

Lemma as_number_str (v : pyval) (s : string) :
  as_number v = PStr s -> isinstance_str v = true.
Proof. destruct v; cbn; congruence. Qed.

Lemma check_date_in_range_Ok_calendar (a b : option pytuple) (d : pytuple)
    (r : bool) :
  check_date_in_range a b d = Ok r -> calendar_pair d.
Proof.
  unfold check_date_in_range. intros Hc.
  destruct (subscript0 a); cbn [bind] in Hc; [|discriminate].
  destruct (subscript1 a); cbn [bind] in Hc; [|discriminate].
  destruct (datetime.date_new _ _ _); cbn [bind] in Hc; [|discriminate].
  destruct (subscript0 b); cbn [bind] in Hc; [|discriminate].
  destruct (subscript1 b); cbn [bind] in Hc; [|discriminate].
  destruct (datetime.date_new _ _ _); cbn [bind] in Hc; [|discriminate].
  destruct (datetime.date_new (fst d) (snd d) (PInt 1)) as [dd|] eqn:Ed;
    [|discriminate].
  destruct d as [y m]. exact (date_new_Ok_calendar y m dd Ed).
Qed.

Lemma check_date_in_range_as_number (a b : option pytuple) (y m : pyval) :
  check_date_in_range a b (y, m)
  = check_date_in_range a b (as_number y, as_number m).
Proof.
  unfold check_date_in_range. cbn [fst snd].
  rewrite (date_new_as_number y m). reflexivity.
Qed.

Section RowsAt.
Variables (cc cy cm cn : Z) (a b : option pytuple).

Lemma cell_is_inv (r : row) (col : Z) (k : pyval) :
  cell_is r col k = true ->
  exists v, row_getitem r col = Ok v /\ as_number k = as_number v.
Proof.
  unfold cell_is. destruct (row_getitem r col) as [v|]; [|discriminate].
  intros H. exists v. split; [reflexivity|apply py_eqb_true, H].
Qed.

Lemma row_selected_inv (r : row) :
  row_selected a b cy cm r = true ->
  exists y0 m0, row_getitem r cy = Ok y0 /\ row_getitem r cm = Ok m0
                /\ check_date_in_range a b (y0, m0) = Ok true.
Proof.
  unfold row_selected, row_in_range. intros H.
  destruct (row_getitem r cy) as [y0|]; cbn [bind] in H; [|discriminate].
  destruct (row_getitem r cm) as [m0|]; cbn [bind] in H; [|discriminate].
  destruct (check_date_in_range a b (y0, m0)) as [[|]|] eqn:E;
    [|discriminate|discriminate].
  exists y0, m0. split; [reflexivity|]. split; [reflexivity|exact E].
Qed.

Lemma row_at_on_series (c n y m : pyval) (r : row) :
  row_at cc cy cm cn a b c n y m r = true ->
  row_on_series cc cy cm cn a b c n r = true.
Proof.
  unfold row_at, row_on_series. intros H.
  apply andb_true_iff in H as [H _]. apply andb_true_iff in H as [H _]. exact H.
Qed.

(** A row at a key path holds a calendar date equal to the year and
    month of the path, which the range test accepts. *)
Lemma row_at_date (c n y m : pyval) (r : row) :
  row_at cc cy cm cn a b c n y m r = true ->
  check_date_in_range a b (as_number y, as_number m) = Ok true
  /\ calendar_pair (y, m).
Proof.
  unfold row_at. intros H.
  apply andb_true_iff in H as [H Hm]. apply andb_true_iff in H as [H Hy].
  apply andb_true_iff in H as [H _]. apply andb_true_iff in H as [Hs _].
  destruct (row_selected_inv r Hs) as (y0 & m0 & Ey & Em & Hc).
  destruct (cell_is_inv r cy y Hy) as (y1 & Ey1 & Hy1).
  destruct (cell_is_inv r cm m Hm) as (m1 & Em1 & Hm1).
  assert (y1 = y0) by congruence. assert (m1 = m0) by congruence. subst.
  rewrite check_date_in_range_as_number, <- Hy1, <- Hm1 in Hc.
  split; [exact Hc|].
  rewrite <- check_date_in_range_as_number in Hc.
  exact (check_date_in_range_Ok_calendar a b (y, m) true Hc).
Qed.

End RowsAt.

(** X16. Raw mode on the store as it is specified gives dense
    series: with calendar bounds, when every cell and date can be
    used, the store holds a count at (crime, neighbourhood, year,
    month), year and month integers, exactly when some row of the
    range is in the series and the month is a month of the range. *)
Theorem raw_mode_dense_series :
  forall (rows : list row) (cc cy cm cn : Z) (cocc : option Z)
         (sy sm ey em : Z) (calls : list call),
    valid_year_month sy sm -> valid_year_month ey em ->
    raw_calls cc cy cm cn (Some (PInt sy, PInt sm)) (Some (PInt ey, PInt em)) rows
    = Ok calls ->
    exists cd : CrimeData,
      build_crime_data_class rows cc cy cm cn false cocc
        (Some (PInt sy, PInt sm)) (Some (PInt ey, PInt em)) = Ok cd
      /\ forall (c n : pyval) (y m : Z),
           lookup_count cd c n (PInt y) (PInt m) <> None
           <-> existsb (row_on_series cc cy cm cn (Some (PInt sy, PInt sm))
                          (Some (PInt ey, PInt em)) c n) rows = true
               /\ in_inclusive_range (sy, sm) (ey, em) (y, m).
Proof.
  intros rows cc cy cm cn cocc sy sm ey em calls Hs He H.
  destruct (raw_build_store rows cc cy cm cn cocc sy sm ey em calls H)
    as (cd & Hb & _ & Hc).
  exists cd. split; [exact Hb|]. intros c n y m. rewrite Hc.
  set (a := Some (PInt sy, PInt sm)). set (b := Some (PInt ey, PInt em)).
  destruct (existsb (row_at cc cy cm cn a b c n (PInt y) (PInt m)) rows) eqn:Eat.
  - split; [intros _|discriminate].
    apply existsb_exists in Eat as (r & Hr & Hat). split.
    + apply existsb_exists. exists r. split; [exact Hr|].
      exact (row_at_on_series cc cy cm cn a b _ _ _ _ r Hat).
    + destruct (row_at_date cc cy cm cn a b _ _ _ _ r Hat) as [Hchk Hcal].
      cbn [as_number] in Hchk.
      destruct Hcal as (y' & m' & Hy' & Hm' & Hv). cbn [fst snd as_number] in *.
      inversion Hy'; inversion Hm'; subst y' m'.
      apply (check_date_in_range_lex sy sm ey em y m Hs He Hv) in Hchk.
      split; [apply Hv|exact Hchk].
  - destruct (existsb (row_on_series cc cy cm cn a b c n) rows) eqn:Eon;
      cbn [andb].
    + destruct (in_months (months_in_range (sy, sm) (ey, em)) (PInt y) (PInt m))
        eqn:Ein.
      * split; [intros _|discriminate]. split; [reflexivity|].
        apply in_months_In in Ein.
        apply months_in_range_sound; [apply Hs|apply He|exact Ein].
      * split; [congruence|]. intros [_ Hr].
        apply months_in_range_complete, in_months_In in Hr. congruence.
    + split; [congruence|]. intros [Hf _]. discriminate.
Qed.

Lemma raw_mode_dense_series_witness :
  exists cd : CrimeData,
    build_crime_data_class example_rows 0 1 2 3 false None
      (Some (PInt 2003, PInt 1)) (Some (PInt 2003, PInt 3)) = Ok cd
    /\ forall (c n : pyval) (y m : Z),
         lookup_count cd c n (PInt y) (PInt m) <> None
         <-> existsb (row_on_series 0 1 2 3 (Some (PInt 2003, PInt 1))
                        (Some (PInt 2003, PInt 3)) c n) example_rows = true
             /\ in_inclusive_range (2003, 1) (2003, 3) (y, m).
Proof.
  eapply (raw_mode_dense_series example_rows 0 1 2 3 None 2003 1 2003 3).
  - unfold valid_year_month, datetime.MINYEAR, datetime.MAXYEAR. lia.
  - unfold valid_year_month, datetime.MINYEAR, datetime.MAXYEAR. lia.
  - reflexivity.
Defined.

Lemma in_months_int (months : list (Z * Z)) (y m : pyval) :
  in_months months y m = true ->
  isinstance_int y = true /\ isinstance_int m = true.
Proof.
  unfold in_months. intros H. apply existsb_exists in H as ([y' m'] & _ & H).
  cbn [fst snd] in H. apply andb_true_iff in H as [Hy Hm].
  apply py_eqb_true in Hy, Hm. cbn [as_number] in Hy, Hm.
  split; eapply as_number_int; eassumption.
Qed.

Lemma row_on_series_str (cc cy cm cn : Z) (a b : option pytuple)
    (c n : pyval) (r : row) :
  row_on_series cc cy cm cn a b c n r = true ->
  (exists s1 s2, row_getitem r cc = Ok (PStr s1) /\ row_getitem r cn = Ok (PStr s2)) ->
  isinstance_str c = true /\ isinstance_str n = true.
Proof.
  unfold row_on_series. intros H (s1 & s2 & E1 & E2).
  apply andb_true_iff in H as [H Hn]. apply andb_true_iff in H as [_ Hc].
  destruct (cell_is_inv r cc c Hc) as (v1 & Ev1 & Hv1).
  destruct (cell_is_inv r cn n Hn) as (v2 & Ev2 & Hv2).
  rewrite E1 in Ev1. rewrite E2 in Ev2. inversion Ev1; inversion Ev2; subst.
  split; eapply as_number_str; eassumption.
Qed.

(** X17. Raw mode, then export, on the store as it is specified: when
    every cell and date can be used and the crime type and
    neighbourhood cells of the rows of the range are [str], every leaf
    of the built store has the exported shape, so [create_csv] emits
    every leaf and drops none. *)
Theorem raw_mode_export_complete :
  forall (rows : list row) (cc cy cm cn : Z) (cocc : option Z)
         (sy sm ey em : Z) (calls : list call),
    raw_calls cc cy cm cn (Some (PInt sy, PInt sm)) (Some (PInt ey, PInt em)) rows
    = Ok calls ->
    (forall r, In r rows ->
       row_selected (Some (PInt sy, PInt sm)) (Some (PInt ey, PInt em)) cy cm r
       = true ->
       exists s1 s2,
         row_getitem r cc = Ok (PStr s1) /\ row_getitem r cn = Ok (PStr s2)) ->
    exists (cd : CrimeData) (fd : formatted_dict),
      build_crime_data_class rows cc cy cm cn false cocc
        (Some (PInt sy, PInt sm)) (Some (PInt ey, PInt em)) = Ok cd
      /\ create_csv cd = Ok fd
      /\ records fd = leaves cd.
Proof.
  intros rows cc cy cm cn cocc sy sm ey em calls H Hstr.
  destruct (raw_build_store rows cc cy cm cn cocc sy sm ey em calls H)
    as (cd & Hb & Hwf & Hc).
  set (a := Some (PInt sy, PInt sm)) in *. set (b := Some (PInt ey, PInt em)) in *.
  assert (Hall : forall r, In r (leaves cd) -> conforming r = true).
  { intros [[[[c n] y] m] v] Hin.
    pose proof (leaves_lookup cd c n y m v Hwf Hin) as Hl. rewrite Hc in Hl.
    assert (Hseries : existsb (row_on_series cc cy cm cn a b c n) rows = true
                      -> isinstance_str c = true /\ isinstance_str n = true).
    { intros Hex. apply existsb_exists in Hex as (r & Hr & Hon).
      apply (row_on_series_str cc cy cm cn a b c n r Hon). apply Hstr; [exact Hr|].
      unfold row_on_series in Hon. apply andb_true_iff in Hon as [Hon _].
      apply andb_true_iff in Hon as [Hon _]. exact Hon. }
    unfold conforming.
    destruct (existsb (row_at cc cy cm cn a b c n y m) rows) eqn:Eat.
    - inversion Hl; subst v.
      apply existsb_exists in Eat as (r & Hr & Hat).
      destruct Hseries as [Hc1 Hn1].
      { apply existsb_exists. exists r. split; [exact Hr|].
        exact (row_at_on_series cc cy cm cn a b _ _ _ _ r Hat). }
      destruct (row_at_date cc cy cm cn a b _ _ _ _ r Hat)
        as [_ (y' & m' & Hy' & Hm' & _)].
      cbn [fst snd] in Hy', Hm'.
      rewrite Hc1, Hn1, (as_number_int y y' Hy'), (as_number_int m m' Hm').
      reflexivity.
    - destruct (existsb (row_on_series cc cy cm cn a b c n) rows) eqn:Eon;
        cbn [andb] in Hl; [|discriminate].
      destruct (in_months (months_in_range (sy, sm) (ey, em)) y m) eqn:Ein;
        [|discriminate].
      inversion Hl; subst v.
      destruct (Hseries eq_refl) as [Hc1 Hn1].
      destruct (in_months_int _ y m Ein) as [Hy1 Hm1].
      rewrite Hc1, Hn1, Hy1, Hm1. reflexivity. }
  exists cd, (fd_of_records (leaves cd)). split; [exact Hb|]. split.
  - rewrite <- (filter_all conforming (leaves cd) Hall).
    apply create_csv_records, Hwf.
  - apply records_fd_of_records.
Qed.

Lemma raw_mode_export_complete_witness :
  exists (cd : CrimeData) (fd : formatted_dict),
    build_crime_data_class example_rows 0 1 2 3 false None
      (Some (PInt 2003, PInt 1)) (Some (PInt 2003, PInt 3)) = Ok cd
    /\ create_csv cd = Ok fd
    /\ records fd = leaves cd.
Proof.
  eapply (raw_mode_export_complete example_rows 0 1 2 3 None 2003 1 2003 3).
  - reflexivity.
  - intros r Hr _. cbn [In example_rows] in Hr.
    destruct Hr as [<-|[<-|[<-|[]]]]; eexists; eexists; split; reflexivity.
Defined.
